(** * Authentication and rate limiting of the catalog backend

    A shallow embedding of [middleware/auth.js] and [routes/auth.js]:
    the in-memory rate limiter, the token issuer, the access guard and the
    register / login / refresh / logout handlers, with the properties the
    specification states about them.

    Conventions.
    - JavaScript numbers that hold counters, HTTP statuses and millisecond
      timestamps are integers ([Z]).
    - [process.env] entries and JSON body fields are [option string]:
      [None] is [undefined], and the empty string is falsy as in JavaScript.
    - [Date.now()] is an argument [now] of each handler.
    - A handler runs on the user collection together with a log of the calls
      it makes on the user model, so that what a handler did not call can be
      stated.
    - The JavaScript [Map] of the rate limiter is a [gmap]; the user
      collection of the database is a list of documents, in insertion order. *)

From stdpp Require Import gmap strings list.

Local Open Scope string_scope.
Local Open Scope Z_scope.

(** ** JavaScript values that the handlers test *)

Module JS.

(** [!!s] for a string: only the empty string is falsy. *)
Definition truthy_string (s : string) : bool := negb (String.eqb s "").

(** [!!v] for a value that is a string or [undefined]. *)
Definition truthy (v : option string) : bool :=
  match v with
  | Some s => truthy_string s
  | None => false
  end.

(** [a === b] for values that are strings or [undefined]. *)
Definition strict_eq (a b : option string) : bool :=
  match a, b with
  | Some x, Some y => String.eqb x y
  | None, None => true
  | _, _ => false
  end.

End JS.

(** ** Exceptions *)

(** The exceptions the handlers can see, told apart by [error.name]. *)
Inductive exn :=
| JsonWebTokenError (message : string)
| TokenExpiredError (message : string)
| Error (message : string).

Definition name (e : exn) : string :=
  match e with
  | JsonWebTokenError _ => "JsonWebTokenError"
  | TokenExpiredError _ => "TokenExpiredError"
  | Error _ => "Error"
  end.

(** A call that returns or throws. *)
Inductive result (A : Type) :=
| Ok (a : A)
| Throw (e : exn).

Arguments Ok {A}.
Arguments Throw {A}.

(** ** The jsonwebtoken library, symbolically *)

(** HS256 signing is idealised: a signed token is the payload together with
    the key that signed it, and a signature verifies exactly under that key.
    Any other string a client may send is [Opaque].  Times inside a token are
    in seconds, [Math.floor(Date.now() / 1000)]. *)

Module Jwt.

(** A decoded payload: the claims given to [sign] with [iat] and [exp]. *)
Record claims := {
  id : string;
  role : option string;
  iat : Z;
  exp : Z
}.

Inductive token :=
| Opaque (s : string)
| Signed (payload : claims) (key : string).

#[global] Instance claims_eq_dec : EqDecision claims.
Proof. solve_decision. Defined.
#[global] Instance token_eq_dec : EqDecision token.
Proof. solve_decision. Defined.

(** [!!t] for a token that is a string or [undefined]. *)
Definition truthy (t : option token) : bool :=
  match t with
  | None | Some (Opaque "") => false
  | Some _ => true
  end.

Definition clockTimestamp (now : Z) : Z := now / 1000.

(** [jwt.sign(payload, secret, { expiresIn, algorithm: 'HS256' })], with
    [expiresIn] in seconds. *)
Definition sign (id : string) (role : option string) (secret : option string)
    (expiresIn : Z) (now : Z) : result token :=
  match secret with
  | Some key =>
      if JS.truthy_string key then
        Ok (Signed {| id := id; role := role;
                      iat := clockTimestamp now;
                      exp := clockTimestamp now + expiresIn |} key)
      else Throw (Error "secretOrPrivateKey must have a value")
  | None => Throw (Error "secretOrPrivateKey must have a value")
  end.

(** [jwt.verify(token, secret)] *)
Definition verify (t : option token) (secret : option string) (now : Z)
    : result claims :=
  match t with
  | None | Some (Opaque "") => Throw (JsonWebTokenError "jwt must be provided")
  | Some (Opaque _) => Throw (JsonWebTokenError "jwt malformed")
  | Some (Signed payload key) =>
      if negb (JS.truthy secret) then
        Throw (JsonWebTokenError "secret or public key must be provided")
      else if negb (JS.strict_eq (Some key) secret) then
        Throw (JsonWebTokenError "invalid signature")
      else if clockTimestamp now >=? exp payload then
        Throw (TokenExpiredError "jwt expired")
      else Ok payload
  end.

End Jwt.

(** ** HTTP responses *)

Record PublicUser := {
  pu_id : string;
  pu_username : string;
  pu_email : string;
  pu_role : string
}.

Inductive Body :=
| Message (success : bool) (message : string)
| MessageCode (success : bool) (message code : string)
| LoginBody (accessToken refreshToken : Jwt.token) (user : PublicUser)
| RefreshBody (accessToken : Jwt.token).

Record Response := {
  status : Z;
  body : Body
}.

(** The [success] field of the JSON envelope. *)
Definition success (r : Response) : bool :=
  match body r with
  | Message s _ | MessageCode s _ _ => s
  | LoginBody _ _ _ | RefreshBody _ => true
  end.

(** [res.status(c).json({ success, message })] and [res.json(b)]. *)
Definition status_json (c : Z) (s : bool) (m : string) : Response :=
  {| status := c; body := Message s m |}.
Definition json (b : Body) : Response :=
  {| status := 200; body := b |}.

(** ** The rate limiter ([rateLimit] in middleware/auth.js) *)

Module RateLimit.

(** A value of [rateLimitStore]: [{ count, resetTime }]. *)
Record record := { count : Z; resetTime : Z }.

(** What the middleware reads of the request: [req.user?.id] and [req.ip]. *)
Record request := { user_id : option string; ip : string }.

(** [req.user?.id || req.ip] *)
Definition identifier (req : request) : string :=
  match user_id req with
  | Some id => if JS.truthy_string id then id else ip req
  | None => ip req
  end.

(** The middleware either calls [next()] or answers itself. *)
Inductive verdict :=
| Next
| Respond (r : Response).

Definition too_many : Response :=
  status_json 429 false "Too many requests, please try again later".

(** The closure returned by [rateLimit(maxRequests, windowMs)], run on one
    request at time [now] against the shared store.  [record.count++]
    mutates the object held by the map, hence the insertion. *)
Definition rateLimit (maxRequests windowMs : Z) (req : request) (now : Z)
    (store : gmap string record) : verdict * gmap string record :=
  let identifier := identifier req in
  match store !! identifier with
  | None =>
      (Next, <[identifier := {| count := 1; resetTime := now + windowMs |}]> store)
  | Some record =>
      if now >? resetTime record then
        (Next, <[identifier := {| count := 1; resetTime := now + windowMs |}]> store)
      else if count record >=? maxRequests then
        (Respond too_many, store)
      else
        (Next, <[identifier := {| count := count record + 1;
                                  resetTime := resetTime record |}]> store)
  end.

(** The defaults of [rateLimit(maxRequests = 100, windowMs = 15 * 60 * 1000)]. *)
Definition default_maxRequests : Z := 100.
Definition default_windowMs : Z := 15 * 60 * 1000.

(** The two limiters the routes install; both read and write the one store. *)
Definition productLimiter := rateLimit 50 60000.
Definition whatsappLimiter := rateLimit 5 (60 * 60 * 1000).

(** The periodic sweep registered with [setInterval]. *)
Definition sweep (now : Z) (store : gmap string record) : gmap string record :=
  filter (λ kv, ¬ (resetTime kv.2 < now)) store.

(** A run of one limiter over successive requests, each with its clock. *)
Fixpoint serve (maxRequests windowMs : Z) (calls : list (request * Z))
    (store : gmap string record) : list verdict * gmap string record :=
  match calls with
  | [] => ([], store)
  | (req, now) :: rest =>
      let '(v, store') := rateLimit maxRequests windowMs req now store in
      let '(vs, store'') := serve maxRequests windowMs rest store' in
      (v :: vs, store'')
  end.

(** The specification's [check(key, max, windowMs)], written from its three
    bullets, to be compared with [rateLimit]. *)
Definition check_spec (key : string) (max windowMs now : Z)
    (store : gmap string record) : verdict * gmap string record :=
  let fresh := {| count := 1; resetTime := now + windowMs |} in
  match store !! key with
  | None => (Next, <[key := fresh]> store)
  | Some r =>
      if bool_decide (now > resetTime r) then (Next, <[key := fresh]> store)
      else if bool_decide (count r < max) then
        (Next, <[key := {| count := count r + 1; resetTime := resetTime r |}]> store)
      else (Respond too_many, store)
  end.

(** The record of a new window, and a record counted once more. *)
Definition fresh (now windowMs : Z) : record :=
  {| count := 1; resetTime := now + windowMs |}.

Definition bumped (r : record) : record :=
  {| count := count r + 1; resetTime := resetTime r |}.

(** No record of the store counts more than [maxRequests]. *)
Definition within_limit (maxRequests : Z) (store : gmap string record) : Prop :=
  ∀ k r, store !! k = Some r → count r ≤ maxRequests.

End RateLimit.


(** ** Configuration ([process.env]) *)

Record Env := {
  JWT_SECRET : option string;
  JWT_REFRESH_SECRET : option string;
  ADMIN_SECRET_TOKEN : option string
}.

(** ** The token issuer (middleware/auth.js) *)

(** [expiresIn: '1d'] and [expiresIn: '7d'], in seconds. *)
Definition one_day : Z := 86400.
Definition seven_days : Z := 604800.

Definition generateAccessToken (env : Env) (now : Z) (userId role : string)
    : result Jwt.token :=
  Jwt.sign userId (Some role) (JWT_SECRET env) one_day now.

Definition generateRefreshToken (env : Env) (now : Z) (userId : string)
    : result Jwt.token :=
  Jwt.sign userId None (JWT_REFRESH_SECRET env) seven_days now.

(** ** The user model (models/userModel.js) *)

Module User.

(** Modelled from the spec: the entries of a user's refresh-token list, a
    token string with its issue time.  The schema is not among the sources. *)
Record refreshToken := {
  token : Jwt.token;
  createdAt : Z
}.

(** Modelled from the spec: the user document of the credential store
    (models/userModel.js is not among the sources).  [password] holds the
    stored hash; [lockUntil] is [None] when unset. *)
Record doc := {
  _id : string;
  username : string;
  email : string;
  password : string;
  role : string;
  isActive : bool;
  loginAttempts : Z;
  lockUntil : option Z;
  refreshTokens : list refreshToken
}.

(** Modelled from the spec: the [isLocked] virtual of the user model, true
    when the lock-until timestamp is in the future. *)
Definition isLocked (user : doc) (now : Z) : bool :=
  match lockUntil user with
  | Some t => t >? now
  | None => false
  end.

Definition set_lockout (attempts : Z) (lock : option Z) (u : doc) : doc :=
  {| _id := _id u; username := username u; email := email u;
     password := password u; role := role u; isActive := isActive u;
     loginAttempts := attempts; lockUntil := lock;
     refreshTokens := refreshTokens u |}.

Definition set_refreshTokens (l : list refreshToken) (u : doc) : doc :=
  {| _id := _id u; username := username u; email := email u;
     password := password u; role := role u; isActive := isActive u;
     loginAttempts := loginAttempts u; lockUntil := lockUntil u;
     refreshTokens := l |}.

End User.

(** What the model takes from outside the repository, and the two lockout
    constants that the sources do not show. *)
Class Collaborators := {
  (** bcrypt, hashing on save and comparing on login *)
  bcrypt_hash : string → string;
  bcrypt_compare : string → string → bool;
  (** the identifier the database gives a new document *)
  ObjectId : list User.doc → string;
  (** failed attempts after which the account locks, and for how long (ms) *)
  MAX_LOGIN_ATTEMPTS : Z;
  LOCK_TIME : Z
}.

(** The calls a handler makes on the user model, in order. *)
Inductive call :=
| FindOne (email : string)
| FindOneOr (email username : string)
| FindById (id : string)
| FindByIdAndUpdate (id : string)
| Save (id : string)
| MatchPassword (id candidate : string)
| IncrementLoginAttempts (id : string)
| ResetLoginAttempts (id : string).

#[global] Instance call_eq_dec : EqDecision call.
Proof. solve_decision. Defined.

(** The state a handler runs in: the user collection and the log of calls. *)
Record World := {
  users : list User.doc;
  calls : list call
}.

(** [updateOne({ _id: id }, f)]: the first document with this id is changed. *)
Fixpoint updateOne (id : string) (f : User.doc → User.doc) (db : list User.doc)
    : list User.doc :=
  match db with
  | [] => []
  | u :: rest =>
      if String.eqb (User._id u) id then f u :: rest else u :: updateOne id f rest
  end.

(** ** Handlers as computations with early return and exceptions *)

(** A statement completes normally, executes [return res...], or throws. *)
Inductive outcome (A : Type) :=
| Normal (a : A)
| Returned (r : Response)
| Thrown (e : exn).

Arguments Normal {A}.
Arguments Returned {A}.
Arguments Thrown {A}.

Definition M (A : Type) : Type := World → outcome A * World.

#[global] Instance M_ret : MRet M := λ A a w, (Normal a, w).

#[global] Instance M_bind : MBind M := λ A B k m w,
  match m w with
  | (Normal a, w') => k a w'
  | (Returned r, w') => (Returned r, w')
  | (Thrown e, w') => (Thrown e, w')
  end.

(** [return res.status(..).json(..)] *)
Definition return_ {A} (r : Response) : M A := λ w, (Returned r, w).

Definition throw {A} (e : exn) : M A := λ w, (Thrown e, w).

(** A library call that may throw. *)
Definition lift {A} (r : result A) : M A :=
  match r with
  | Ok a => mret a
  | Throw e => throw e
  end.

(** [try { body } catch (error) { handler }] *)
Definition try_catch {A} (body : M A) (handler : exn → M A) : M A := λ w,
  match body w with
  | (Thrown e, w') => handler e w'
  | other => other
  end.

(** [if (c) { m }] *)
Definition when (c : bool) (m : M unit) : M unit :=
  if c then m else mret tt.

Definition log (c : call) : M unit := λ w,
  (Normal tt, {| users := users w; calls := calls w ++ [c] |}).

Definition get_users : M (list User.doc) := λ w, (Normal (users w), w).

Definition put_users (db : list User.doc) : M unit := λ w,
  (Normal tt, {| users := db; calls := calls w |}).

(** The response of a route, [None] if an exception escaped every handler. *)
Definition respond (route : M Empty_set) (w : World) : option Response * World :=
  match route w with
  | (Returned r, w') => (Some r, w')
  | (Thrown _, w') => (None, w')
  | (Normal x, _) => match x with end
  end.

(** ** Requests *)

(** [req.body] of POST /register *)
Record RegisterBody := {
  reg_username : option string;
  reg_email : option string;
  reg_password : option string;
  reg_role : option string
}.

(** [req.body] of POST /login *)
Record LoginRequest := {
  login_email : option string;
  login_password : option string;
  login_adminToken : option string
}.

(** The [Authorization] header: absent, a string that does not start with
    [Bearer ], or [Bearer ] followed by a token string. *)
Inductive authorization :=
| NoHeader
| NotBearer (header : string)
| Bearer (t : Jwt.token).

(** [req.user] as the access guard sets it. *)
Record ReqUser := {
  ru_id : string;
  ru_role : option string
}.

Section Handlers.

Context {deps : Collaborators}.
Variable env : Env.
Variable now : Z.

(** *** Queries and methods of the user model *)

(** [User.findOne({ email })] *)
Definition User_findOne (email : string) : M (option User.doc) :=
  log (FindOne email);;
  db ← get_users;
  mret (find (λ u, String.eqb (User.email u) email) db).

(** [User.findOne({ $or: [{ email }, { username }] })] *)
Definition User_findOne_or (email username : string) : M (option User.doc) :=
  log (FindOneOr email username);;
  db ← get_users;
  mret (find (λ u, String.eqb (User.email u) email
                   || String.eqb (User.username u) username) db).

(** [User.findById(id)] *)
Definition User_findById (id : string) : M (option User.doc) :=
  log (FindById id);;
  db ← get_users;
  mret (find (λ u, String.eqb (User._id u) id) db).

(** [{ $pull: { refreshTokens: { token: t } } }]: every entry of the list
    with this token is removed. *)
Definition pull (t : Jwt.token) (u : User.doc) : User.doc :=
  User.set_refreshTokens
    (filter (λ r, User.token r ≠ t) (User.refreshTokens u)) u.

(** [User.findByIdAndUpdate(id, { $pull: { refreshTokens: { token } } })] *)
Definition User_findByIdAndUpdate_pull (id : string) (t : Jwt.token) : M unit :=
  log (FindByIdAndUpdate id);;
  db ← get_users;
  put_users (updateOne id (pull t) db).

(** Modelled from the spec: [user.matchPassword(candidate)] compares the
    candidate with the stored hash. *)
Definition matchPassword (user : User.doc) (candidate : string) : M bool :=
  log (MatchPassword (User._id user) candidate);;
  mret (bcrypt_compare candidate (User.password user)).

(** Modelled from the spec: [user.incrementLoginAttempts()] adds one to the
    failed-login counter and, once the threshold is reached, sets lock-until
    to now plus the lock time. *)
Definition incrementLoginAttempts (user : User.doc) : M unit :=
  log (IncrementLoginAttempts (User._id user));;
  db ← get_users;
  put_users
    (updateOne (User._id user)
       (λ u, let attempts := User.loginAttempts u + 1 in
             User.set_lockout attempts
               (if attempts >=? MAX_LOGIN_ATTEMPTS then Some (now + LOCK_TIME)
                else User.lockUntil u) u)
       db).

(** Modelled from the spec: [user.resetLoginAttempts()] resets the counter to
    zero and clears lock-until. *)
Definition resetLoginAttempts (user : User.doc) : M unit :=
  log (ResetLoginAttempts (User._id user));;
  db ← get_users;
  put_users (updateOne (User._id user) (User.set_lockout 0 None) db).

(** Modelled from the spec: [new User({ username, email, password, role })]
    followed by [save()] stores the password as a hash; a new account is
    active, with no failed login, no lock and no refresh token. *)
Definition User_create (username email password role : string) : M User.doc :=
  db ← get_users;
  let user := {| User._id := ObjectId db; User.username := username;
                 User.email := email; User.password := bcrypt_hash password;
                 User.role := role; User.isActive := true;
                 User.loginAttempts := 0; User.lockUntil := None;
                 User.refreshTokens := [] |} in
  log (Save (User._id user));;
  put_users (db ++ [user]);;
  mret user.

(** [user.save()] after [user.refreshTokens.push(..)]: the changed path is
    written to the stored document. *)
Definition save_refreshTokens (user : User.doc) : M unit :=
  log (Save (User._id user));;
  db ← get_users;
  put_users
    (updateOne (User._id user) (User.set_refreshTokens (User.refreshTokens user)) db).

(** *** The access guard ([protect] in middleware/auth.js) *)

(** Completing normally stands for [req.user = ..; next()]. *)
Definition protect (auth : authorization) : M ReqUser :=
  let token := match auth with
               | Bearer t => Some t
               | NoHeader | NotBearer _ => None
               end in
  when (negb (Jwt.truthy token))
    (return_ (status_json 401 false "Not authorized, no token provided"));;
  try_catch
    (decoded ← lift (Jwt.verify token (JWT_SECRET env) now);
     user ← User_findById (Jwt.id decoded);
     match user with
     | None => return_ (status_json 401 false "User not found or inactive")
     | Some user =>
         when (negb (User.isActive user))
           (return_ (status_json 401 false "User not found or inactive"));;
         mret {| ru_id := Jwt.id decoded; ru_role := Jwt.role decoded |}
     end)
    (λ error,
       if String.eqb (name error) "TokenExpiredError" then
         return_ {| status := 401;
                    body := MessageCode false "Token expired" "TOKEN_EXPIRED" |}
       else return_ (status_json 401 false "Not authorized, invalid token")).

(** *** POST /register (routes/auth.js) *)

Definition register (body : RegisterBody) : M Empty_set :=
  try_catch
    (let username := reg_username body in
     let email := reg_email body in
     let password := reg_password body in
     let role := reg_role body in
     when (JS.strict_eq role (Some "admin"))
       (return_ (status_json 403 false
                   "Admin registration not allowed through this endpoint"));;
     when (negb (JS.truthy username) || negb (JS.truthy email)
           || negb (JS.truthy password))
       (return_ (status_json 400 false
                   "Please provide username, email, and password"));;
     when (Z.of_nat (String.length (default "" password)) <? 8)
       (return_ (status_json 400 false
                   "Password must be at least 8 characters long"));;
     existing ← User_findOne_or (default "" email) (default "" username);
     when (bool_decide (is_Some existing))
       (return_ (status_json 400 false "Username or email already in use"));;
     User_create (default "" username) (default "" email) (default "" password)
       "user";;
     return_ (status_json 201 true "User registered successfully"))
    (λ error, return_ (status_json 500 false "Server error while registering")).

(** *** POST /login *)

Definition login (body : LoginRequest) : M Empty_set :=
  try_catch
    (let email := login_email body in
     let password := login_password body in
     let adminToken := login_adminToken body in
     when (negb (JS.truthy email) || negb (JS.truthy password))
       (return_ (status_json 400 false "Please provide email and password"));;
     user ← User_findOne (default "" email);
     match user with
     | None => return_ (status_json 401 false "Invalid credentials")
     | Some user =>
         when (String.eqb (User.role user) "admin")
           (when (negb (JS.truthy adminToken)
                  || negb (JS.strict_eq adminToken (ADMIN_SECRET_TOKEN env)))
              (incrementLoginAttempts user;;
               return_ (status_json 403 false
                          "Admin token required for admin login")));;
         when (User.isLocked user now)
           (return_ (status_json 423 false
              "Account locked due to too many failed login attempts. Try again later."));;
         isMatch ← matchPassword user (default "" password);
         when (negb isMatch)
           (incrementLoginAttempts user;;
            return_ (status_json 401 false "Invalid credentials"));;
         resetLoginAttempts user;;
         accessToken ← lift (generateAccessToken env now (User._id user)
                               (User.role user));
         refreshToken ← lift (generateRefreshToken env now (User._id user));
         let user :=
           User.set_refreshTokens
             (User.refreshTokens user
              ++ [{| User.token := refreshToken; User.createdAt := now |}])
             user in
         save_refreshTokens user;;
         return_ (json (LoginBody accessToken refreshToken
                          {| pu_id := User._id user;
                             pu_username := User.username user;
                             pu_email := User.email user;
                             pu_role := User.role user |}))
     end)
    (λ error, return_ (status_json 500 false "Server error while logging in")).

(** *** POST /refresh *)

Definition refresh (refreshToken : option Jwt.token) : M Empty_set :=
  try_catch
    (when (negb (Jwt.truthy refreshToken))
       (return_ (status_json 400 false "Refresh token required"));;
     decoded ← lift (Jwt.verify refreshToken (JWT_REFRESH_SECRET env) now);
     user ← User_findById (Jwt.id decoded);
     match user with
     | None => return_ (status_json 401 false "Invalid refresh token")
     | Some user =>
         when (negb (User.isActive user))
           (return_ (status_json 401 false "Invalid refresh token"));;
         let tokenExists :=
           existsb (λ t, bool_decide (Some (User.token t) = refreshToken))
             (User.refreshTokens user) in
         when (negb tokenExists)
           (return_ (status_json 401 false "Invalid refresh token"));;
         newAccessToken ← lift (generateAccessToken env now (User._id user)
                                  (User.role user));
         return_ (json (RefreshBody newAccessToken))
     end)
    (λ error,
       return_ (status_json 401 false "Invalid or expired refresh token")).

(** *** POST /logout, behind the access guard *)

Definition logout_handler (user : ReqUser) (refreshToken : option Jwt.token)
    : M Empty_set :=
  try_catch
    (when (Jwt.truthy refreshToken)
       (match refreshToken with
        | Some t => User_findByIdAndUpdate_pull (ru_id user) t
        | None => mret tt
        end);;
     return_ (json (Message true "Logged out successfully")))
    (λ error, return_ (status_json 500 false "Error logging out")).

Definition logout (auth : authorization) (refreshToken : option Jwt.token)
    : M Empty_set :=
  user ← protect auth;
  logout_handler user refreshToken.

End Handlers.

(** ** The other guards and routes of the two files *)

(** [req.body] of POST /register-admin *)
Record RegisterAdminBody := {
  ra_username : option string;
  ra_email : option string;
  ra_password : option string;
  ra_adminToken : option string
}.

(** The [admin] field of the answer to a successful admin registration. *)
Record AdminCreated := {
  ac_id : string;
  ac_username : string;
  ac_email : string
}.

(** A user document after [select('-password -refreshTokens')]. *)
Record Profile := {
  pr_id : string;
  pr_username : string;
  pr_email : string;
  pr_role : string;
  pr_isActive : bool;
  pr_loginAttempts : Z;
  pr_lockUntil : option Z
}.

Definition select_profile (u : User.doc) : Profile := {|
  pr_id := User._id u; pr_username := User.username u;
  pr_email := User.email u; pr_role := User.role u;
  pr_isActive := User.isActive u; pr_loginAttempts := User.loginAttempts u;
  pr_lockUntil := User.lockUntil u
|}.

(** *** The regular expression of the admin password *)

(** Strings are sequences of code units below 256, one per character. *)
Module Regex.

Definition between (lo hi : nat) (c : Ascii.ascii) : bool :=
  (lo <=? Ascii.nat_of_ascii c)%nat && (Ascii.nat_of_ascii c <=? hi)%nat.

(** [[a-z]], [[A-Z]], [\d] and [[@$!%*?&]] *)
Definition lower (c : Ascii.ascii) : bool := between 97 122 c.
Definition upper (c : Ascii.ascii) : bool := between 65 90 c.
Definition digit (c : Ascii.ascii) : bool := between 48 57 c.
Definition special (c : Ascii.ascii) : bool :=
  existsb (Ascii.eqb c) (String.list_ascii_of_string "@$!%*?&").

(** [[A-Za-z\d@$!%*?&]] *)
Definition allowed (c : Ascii.ascii) : bool :=
  upper c || lower c || digit c || special c.

(** What [.] does not match: line feed and carriage return. *)
Definition line_terminator (c : Ascii.ascii) : bool :=
  Ascii.eqb c (Ascii.ascii_of_nat 10) || Ascii.eqb c (Ascii.ascii_of_nat 13).

(** [(?=.*[cls])] at the start of [s]: some character of the class follows
    after characters that [.] matches. *)
Fixpoint lookahead (cls : Ascii.ascii → bool) (s : string) : bool :=
  match s with
  | EmptyString => false
  | String c rest => cls c || (negb (line_terminator c) && lookahead cls rest)
  end.

(** [^[cls]{n,}$]: the whole string is of the class, [n] characters or more. *)
Definition all_of (cls : Ascii.ascii → bool) (n : nat) (s : string) : bool :=
  forallb cls (String.list_ascii_of_string s) && (n <=? String.length s)%nat.

(** [/^(?=.*[a-z])(?=.*[A-Z])(?=.*\d)(?=.*[@$!%*?&])[A-Za-z\d@$!%*?&]{12,}$/.test(s)] *)
Definition strongPasswordRegex_test (s : string) : bool :=
  lookahead lower s && lookahead upper s && lookahead digit s
  && lookahead special s && all_of allowed 12 s.

End Regex.

Section MoreHandlers.

Context {deps : Collaborators}.
Variable env : Env.
Variable now : Z.

(** *** [adminOnly] (middleware/auth.js) *)

(** [req.user?.role === 'admin']; completing normally stands for [next()]. *)
Definition adminOnly (user : option ReqUser) : M unit :=
  if JS.strict_eq (user ≫= ru_role) (Some "admin") then mret tt
  else return_ (status_json 403 false
                  "Access denied: admin privileges required").

(** [router.post(path, protect, adminOnly, handler)] *)
Definition admin_route (auth : authorization) (handler : ReqUser → M Empty_set)
    : M Empty_set :=
  user ← protect env now auth;
  adminOnly (Some user);;
  handler user.

(** *** POST /register-admin (routes/auth.js) *)

(** Completing normally stands for the answer with status 201,
    [{ success: true, message: 'Admin registered successfully', admin }]. *)
Definition registerAdmin (body : RegisterAdminBody) : M AdminCreated :=
  try_catch
    (let username := ra_username body in
     let email := ra_email body in
     let password := ra_password body in
     let adminToken := ra_adminToken body in
     when (negb (JS.truthy adminToken)
           || negb (JS.strict_eq adminToken (ADMIN_SECRET_TOKEN env)))
       (return_ (status_json 403 false
                   "Invalid admin token. Admin registration denied."));;
     when (negb (JS.truthy username) || negb (JS.truthy email)
           || negb (JS.truthy password))
       (return_ (status_json 400 false
                   "Please provide username, email, and password"));;
     when (Z.of_nat (String.length (default "" password)) <? 12)
       (return_ (status_json 400 false
                   "Admin password must be at least 12 characters long"));;
     when (negb (Regex.strongPasswordRegex_test (default "" password)))
       (return_ (status_json 400 false
          "Admin password must contain uppercase, lowercase, number, and special character"));;
     existing ← User_findOne_or (default "" email) (default "" username);
     when (bool_decide (is_Some existing))
       (return_ (status_json 400 false "Username or email already in use"));;
     admin ← User_create (default "" username) (default "" email)
               (default "" password) "admin";
     mret {| ac_id := User._id admin; ac_username := User.username admin;
             ac_email := User.email admin |})
    (λ error,
       return_ (status_json 500 false "Server error while registering admin")).

(** *** GET /me, behind the access guard *)

(** Completing normally stands for [res.json({ success: true, data: user })]. *)
Definition me_handler (user : ReqUser) : M Profile :=
  try_catch
    (found ← User_findById (ru_id user);
     match found with
     | None => return_ (status_json 404 false "User not found")
     | Some u => mret (select_profile u)
     end)
    (λ error, return_ (status_json 500 false "Error fetching user data")).

Definition me (auth : authorization) : M Profile :=
  user ← protect env now auth;
  me_handler user.

End MoreHandlers.

(** ** The inquiry route (routes/whatsapp.js), a caller of the limiter *)

(** The handler awaits its database calls one after the other, and other
    requests run in between.  It is modelled in the three stretches that run
    without interruption: from arrival to the first await, the two reads, and
    the write with the answer.  Every database call may throw; the handler
    catches what is thrown and answers 500. *)

Module Whatsapp.

(** A document of the [Inquiry] collection. *)
Record inquiry := {
  product : string;
  ipAddress : string;
  userAgent : option string;
  userId : option string;
  timestamp : Z;
  verified : bool
}.

(** What the route reads of a [Product] document. *)
Record product_doc := {
  _id : string;
  isActive : bool
}.

(** What the route reads of the request. *)
Record request := {
  id : string;
  captchaToken : option string;
  honeypot : option string;
  ip : string;
  user_agent : option string;
  user : option string;
  protocol : string;
  host : string
}.

(** The database calls of one request that throw for a reason of the
    database's own (a lost connection, a model that fails to load). *)
Record faults := {
  findOne_throws : bool;
  countDocuments_throws : bool;
  create_throws : bool
}.

(** The token of the redirect link: the payload
    [{ productId, userId, timestamp }] with [iat] and [exp], and the key that
    signed it. *)
Record link_token := {
  productId : string;
  lt_userId : option string;
  lt_timestamp : Z;
  iat : Z;
  exp : Z;
  key : string
}.

(** [jwt.sign({ productId, userId, timestamp: Date.now() },
    process.env.JWT_SECRET, { expiresIn: '5m' })] *)
Definition sign_link (productId : string) (userId : option string)
    (secret : option string) (now : Z) : result link_token :=
  match secret with
  | Some k =>
      if JS.truthy_string k then
        Ok {| productId := productId; lt_userId := userId;
              lt_timestamp := now; iat := Jwt.clockTimestamp now;
              exp := Jwt.clockTimestamp now + 300; key := k |}
      else Throw (Error "secretOrPrivateKey must have a value")
  | None => Throw (Error "secretOrPrivateKey must have a value")
  end.

(** The answer: the JSON with the redirect URL
    [protocol://host/api/whatsapp/redirect/token] and [expiresIn], or a
    failure. *)
Inductive answer :=
| Link (protocol host : string) (token : link_token) (expiresIn : Z)
| Failure (r : Response).

(** The answer of the [catch] block. *)
Definition server_error : Response :=
  status_json 500 false "Error generating inquiry link".

(** The filter of [Inquiry.countDocuments]: same product, same address, not
    older than [since]. *)
Definition recent (id ip : string) (since : Z) (i : inquiry) : bool :=
  String.eqb (product i) id && String.eqb (ipAddress i) ip
  && (timestamp i >=? since).

(** The document that [Inquiry.create] stores. *)
Definition new_inquiry (req : request) (now : Z) : inquiry :=
  {| product := id req; ipAddress := ip req;
     userAgent := user_agent req; userId := user req;
     timestamp := now; verified := JS.truthy (captchaToken req) |}.

(** A stretch of the handler ends with an answer or goes on. *)
Inductive checked :=
| Refused (r : Response)
| Proceed.

(** From arrival to the first await: the honeypot. *)
Definition check_honeypot (req : request) : checked :=
  if JS.truthy (honeypot req) then
    Refused (status_json 400 false "Invalid request")
  else Proceed.

Section Handler.

(** The strings that the database casts to an ObjectId; for any other id the
    query throws a [CastError]. *)
Variable isObjectId : string → bool.
Variable env : Env.
Variable products : list product_doc.

(** The two reads: [Product.findOne({ _id: id, isActive: true })] and
    [Inquiry.countDocuments(..)], with the two tests on their results. *)
Definition lookup_and_count (f : faults) (req : request) (now : Z)
    (inquiries : list inquiry) : checked :=
  if findOne_throws f || negb (isObjectId (id req)) then Refused server_error
  else
    match find (λ p, String.eqb (_id p) (id req) && isActive p) products with
    | None => Refused (status_json 404 false "Product not found")
    | Some found =>
        if countDocuments_throws f then Refused server_error
        else
          let recentInquiries :=
            Z.of_nat (length (List.filter
                                (recent (id req) (ip req) (now - 3600000))
                                inquiries)) in
          if recentInquiries >=? 3 then
            Refused (status_json 429 false
              "Too many inquiries for this product. Please try again later.")
          else Proceed
    end.

(** The write and the answer: [Inquiry.create(..)], [jwt.sign(..)] and
    [res.json(..)]. *)
Definition create (f : faults) (req : request) (now : Z)
    (inquiries : list inquiry) : answer * list inquiry :=
  if create_throws f then (Failure server_error, inquiries)
  else
    let inquiries := (inquiries ++ [new_inquiry req now])%list in
    match sign_link (id req) (user req) (JWT_SECRET env) now with
    | Ok token => (Link (protocol req) (host req) token 300, inquiries)
    | Throw error => (Failure server_error, inquiries)
    end.

(** The handler of POST /product/:id/whatsapp run from start to end with no
    other request in between, on one reading of the clock. *)
Definition inquire (f : faults) (req : request) (now : Z)
    (inquiries : list inquiry) : answer * list inquiry :=
  match check_honeypot req with
  | Refused r => (Failure r, inquiries)
  | Proceed =>
      match lookup_and_count f req now inquiries with
      | Refused r => (Failure r, inquiries)
      | Proceed => create f req now inquiries
      end
  end.

(** *** Requests in flight *)

(** How far a request in flight has come: to its first await, or past its
    count. *)
Inductive phase :=
| Arrived
| Counted.

Record flight := {
  fl_req : request;
  fl_faults : faults;
  fl_phase : phase
}.

(** The limiter's store, the inquiries, and the requests in flight. *)
Record state := {
  store : gmap string RateLimit.record;
  inquiries : list inquiry;
  in_flight : list flight
}.

(** What happens next: a request arrives; the [n]-th request in flight does
    its two reads; the [n]-th request in flight does its write and answers.
    Each with the clock at that moment. *)
Inductive event :=
| Arrive (req : request) (f : faults) (now : Z)
| Count (n : nat) (now : Z)
| Create (n : nat) (now : Z).

(** [router.post('/product/:id/whatsapp', whatsappLimiter, handler)], one
    stretch at a time.  The answer is [None] while the request stays in
    flight, and for an event that no request in flight is due for. *)
Definition step (e : event) (s : state) : option answer * state :=
  match e with
  | Arrive req f now =>
      match RateLimit.whatsappLimiter
              {| RateLimit.user_id := user req; RateLimit.ip := ip req |}
              now (store s) with
      | (RateLimit.Respond r, store') =>
          (Some (Failure r),
           {| store := store'; inquiries := inquiries s;
              in_flight := in_flight s |})
      | (RateLimit.Next, store') =>
          match check_honeypot req with
          | Refused r =>
              (Some (Failure r),
               {| store := store'; inquiries := inquiries s;
                  in_flight := in_flight s |})
          | Proceed =>
              (None,
               {| store := store'; inquiries := inquiries s;
                  in_flight :=
                    in_flight s
                    ++ [{| fl_req := req; fl_faults := f;
                           fl_phase := Arrived |}] |})
          end
      end
  | Count n now =>
      match in_flight s !! n with
      | Some fl =>
          match fl_phase fl with
          | Arrived =>
              match lookup_and_count (fl_faults fl) (fl_req fl) now
                      (inquiries s) with
              | Refused r =>
                  (Some (Failure r),
                   {| store := store s; inquiries := inquiries s;
                      in_flight := delete n (in_flight s) |})
              | Proceed =>
                  (None,
                   {| store := store s; inquiries := inquiries s;
                      in_flight :=
                        <[n := {| fl_req := fl_req fl;
                                  fl_faults := fl_faults fl;
                                  fl_phase := Counted |}]> (in_flight s) |})
              end
          | Counted => (None, s)
          end
      | None => (None, s)
      end
  | Create n now =>
      match in_flight s !! n with
      | Some fl =>
          match fl_phase fl with
          | Counted =>
              let '(a, inquiries') :=
                create (fl_faults fl) (fl_req fl) now (inquiries s) in
              (Some a,
               {| store := store s; inquiries := inquiries';
                  in_flight := delete n (in_flight s) |})
          | Arrived => (None, s)
          end
      | None => (None, s)
      end
  end.

(** The state after a run of events. *)
Fixpoint run (events : list event) (s : state) : state :=
  match events with
  | [] => s
  | e :: rest => run rest (step e s).2
  end.

(** A request with its faults and the readings of the clock at its arrival,
    its reads and its write. *)
Record call := {
  c_req : request;
  c_faults : faults;
  arrived : Z;
  counted : Z;
  created : Z
}.

(** The events of requests that are served in turn, each one answered before
    the next arrives. *)
Definition in_turn (calls : list call) : list event :=
  calls ≫= λ c, [Arrive (c_req c) (c_faults c) (arrived c);
                 Count 0 (counted c); Create 0 (created c)].

End Handler.

(** The inquiries of a product and an address in the hour that ends at [T]. *)
Definition in_hour (id ip : string) (T : Z) (inquiries : list inquiry) : Z :=
  Z.of_nat
    (length
       (List.filter
          (λ i, String.eqb (product i) id && String.eqb (ipAddress i) ip
                && (timestamp i >=? T - 3600000) && (timestamp i <=? T))
          inquiries)).

Definition no_faults : faults :=
  {| findOne_throws := false; countDocuments_throws := false;
     create_throws := false |}.

End Whatsapp.

(** ** The slug of a category (models/model.js) *)

(** A name is modelled as a [string] of characters below U+0100 (Latin-1).
    Names with characters from U+0100 on are outside this model: there
    [.toLowerCase()] is not one character for one (U+0130 becomes i followed
    by U+0307) and can enter the range of [[a-zA-Z0-9]] (U+212A becomes k). *)
Module Slug.

Definition map_string (f : Ascii.ascii → Ascii.ascii) : string → string :=
  fix go s :=
    match s with
    | EmptyString => EmptyString
    | String c rest => String (f c) (go rest)
    end.

Definition dash : Ascii.ascii := Ascii.ascii_of_nat 45.

Definition is_dash (c : Ascii.ascii) : bool := Ascii.eqb c dash.

(** The upper-case letters below 256: A to Z, and the accented capitals
    (code units 192 to 222 without the multiplication sign, 215). *)
Definition upper_case (c : Ascii.ascii) : bool :=
  Regex.upper c || Regex.between 192 214 c || Regex.between 216 222 c.

(** [.toLowerCase()], one character and the string: below 256 every
    upper-case letter has its lower-case form 32 places on. *)
Definition lower_char (c : Ascii.ascii) : Ascii.ascii :=
  if upper_case c then Ascii.ascii_of_nat (Ascii.nat_of_ascii c + 32) else c.

Definition toLowerCase : string → string := map_string lower_char.

(** [[a-zA-Z0-9]] *)
Definition alphanumeric (c : Ascii.ascii) : bool :=
  Regex.lower c || Regex.upper c || Regex.digit c.

(** [.replace(/[^a-zA-Z0-9]/g, '-')] *)
Definition replace_non_alphanumeric : string → string :=
  map_string (λ c, if alphanumeric c then c else dash).

(** [.replace(/-+/g, '-')] *)
Fixpoint collapse_dashes (s : string) : string :=
  match s with
  | EmptyString => EmptyString
  | String c rest =>
      if is_dash c then
        match rest with
        | String c' _ =>
            if is_dash c' then collapse_dashes rest
            else String c (collapse_dashes rest)
        | EmptyString => String c EmptyString
        end
      else String c (collapse_dashes rest)
  end.

(** The [-$] alternative of [.replace(/^-|-$/g, '')] *)
Fixpoint drop_last_dash (s : string) : string :=
  match s with
  | EmptyString => EmptyString
  | String c EmptyString => if is_dash c then EmptyString else s
  | String c rest => String c (drop_last_dash rest)
  end.

(** [.replace(/^-|-$/g, '')]: a dash at the start and a dash at the end. *)
Definition trim_dashes (s : string) : string :=
  match s with
  | String c rest => if is_dash c then drop_last_dash rest else drop_last_dash s
  | EmptyString => EmptyString
  end.

(** The slug that the pre-save hook derives from the name. *)
Definition slugify (name : string) : string :=
  trim_dashes (collapse_dashes (replace_non_alphanumeric (toLowerCase name))).

(** The characters of a slug: [a-z], [0-9] and the dash. *)
Definition slug_char (c : Ascii.ascii) : bool :=
  Regex.lower c || Regex.digit c || is_dash c.

(** No dash at the start, none at the end, no two in a row. *)
Fixpoint no_dash_run (s : string) : bool :=
  match s with
  | EmptyString => true
  | String c rest =>
      match rest with
      | String c' _ => negb (is_dash c && is_dash c') && no_dash_run rest
      | EmptyString => negb (is_dash c)
      end
  end.

Definition no_leading_dash (s : string) : bool :=
  match s with
  | String c _ => negb (is_dash c)
  | EmptyString => true
  end.

(** No two dashes in a row. *)
Fixpoint no_double_dash (s : string) : bool :=
  match s with
  | EmptyString => true
  | String c rest =>
      match rest with
      | String c' _ => negb (is_dash c && is_dash c') && no_double_dash rest
      | EmptyString => true
      end
  end.

Definition has_non_dash (s : string) : bool :=
  existsb (λ c, negb (is_dash c)) (String.list_ascii_of_string s).

(** A name as JavaScript holds it, in UTF-16 code units, and the [string]
    that stands for it when every unit is below 256. *)
Definition of_code_unit (u : nat) : option Ascii.ascii :=
  if (u <? 256)%nat then Some (Ascii.ascii_of_nat u) else None.

Fixpoint of_code_units (units : list nat) : option string :=
  match units with
  | [] => Some EmptyString
  | u :: rest =>
      match of_code_unit u, of_code_units rest with
      | Some c, Some s => Some (String c s)
      | _, _ => None
      end
  end.

(** [[a-zA-Z0-9]] on a code unit. *)
Definition alphanumeric_unit (u : nat) : bool :=
  ((97 <=? u) && (u <=? 122) || (65 <=? u) && (u <=? 90)
   || (48 <=? u) && (u <=? 57))%nat.

End Slug.

(** ** Counting what a limiter lets through *)

Definition is_next (v : RateLimit.verdict) : bool :=
  match v with
  | RateLimit.Next => true
  | RateLimit.Respond _ => false
  end.

(** The requests of key [k] among [calls] that were answered with [next()]. *)
Definition admitted_for (k : string) (calls : list (RateLimit.request * Z))
    (verdicts : list RateLimit.verdict) : Z :=
  Z.of_nat
    (length
       (List.filter
          (λ cv : (RateLimit.request * Z) * RateLimit.verdict,
             bool_decide (RateLimit.identifier cv.1.1 = k) && is_next cv.2)
          (zip calls verdicts))).

(** The requests of key [k] among [calls]. *)
Definition requests_of (k : string) (calls : list (RateLimit.request * Z)) : Z :=
  Z.of_nat
    (length
       (List.filter
          (λ c : RateLimit.request * Z,
             bool_decide (RateLimit.identifier c.1 = k))
          calls)).

(** ** The specification's conditions *)

(** A refresh succeeds when the subject user exists, is active, and holds the
    literal token in its refresh-token list. *)
Definition refresh_accepted (db : list User.doc) (subject : string)
    (t : Jwt.token) : Prop :=
  ∃ user,
    find (λ u, String.eqb (User._id u) subject) db = Some user
    ∧ User.isActive user = true
    ∧ t ∈ User.token <$> User.refreshTokens user.

(** The answer of a logout. *)
Definition logged_out : Response :=
  json (Message true "Logged out successfully").

(** ** Sample data for the examples *)

Definition a_client : RateLimit.request :=
  {| RateLimit.user_id := None; RateLimit.ip := "203.0.113.7" |}.

(** A stand-in for bcrypt and the database's identifiers, with the lockout
    constants the specification suggests (5 attempts, 15 minutes). *)
Definition sample_collaborators : Collaborators := {|
  bcrypt_hash := λ s, "$2b$" ++ s;
  bcrypt_compare := λ candidate hash, String.eqb ("$2b$" ++ candidate) hash;
  ObjectId := λ db, "6501" ++ String.concat "" (replicate (length db) "0");
  MAX_LOGIN_ATTEMPTS := 5;
  LOCK_TIME := 900000
|}.

Definition sample_env : Env := {|
  JWT_SECRET := Some "access-secret";
  JWT_REFRESH_SECRET := Some "refresh-secret";
  ADMIN_SECRET_TOKEN := Some "admin-secret"
|}.

Definition empty_world : World := {| users := []; calls := [] |}.

(** A refresh token and an access token issued to bob at second 1000. *)
Definition bob_refresh : Jwt.token :=
  Jwt.Signed {| Jwt.id := "6501b"; Jwt.role := None;
                Jwt.iat := 1000; Jwt.exp := 605800 |} "refresh-secret".

Definition bob_access : Jwt.token :=
  Jwt.Signed {| Jwt.id := "6501b"; Jwt.role := Some "user";
                Jwt.iat := 1000; Jwt.exp := 87400 |} "access-secret".

(** alice is locked until ms 2000000, bob holds a refresh token, root is an
    administrator. *)
Definition alice : User.doc := {|
  User._id := "6501a"; User.username := "alice";
  User.email := "alice@example.com"; User.password := "$2b$correct horse";
  User.role := "user"; User.isActive := true;
  User.loginAttempts := 5; User.lockUntil := Some 2000000;
  User.refreshTokens := []
|}.

Definition bob : User.doc := {|
  User._id := "6501b"; User.username := "bob";
  User.email := "bob@example.com"; User.password := "$2b$battery staple";
  User.role := "user"; User.isActive := true;
  User.loginAttempts := 0; User.lockUntil := None;
  User.refreshTokens := [{| User.token := bob_refresh; User.createdAt := 1000000 |}]
|}.

Definition root : User.doc := {|
  User._id := "6501c"; User.username := "root";
  User.email := "root@example.com"; User.password := "$2b$Tr0ub4dor&3xyz";
  User.role := "admin"; User.isActive := true;
  User.loginAttempts := 0; User.lockUntil := None;
  User.refreshTokens := []
|}.

Definition sample_world : World := {| users := [alice; bob; root]; calls := [] |}.

Definition admin_signup : RegisterBody := {|
  reg_username := Some "mallory"; reg_email := Some "mallory@example.com";
  reg_password := Some "long enough password"; reg_role := Some "admin"
|}.

Definition alice_login : LoginRequest := {|
  login_email := Some "alice@example.com";
  login_password := Some "correct horse";
  login_adminToken := None
|}.

Definition root_login : LoginRequest := {|
  login_email := Some "root@example.com";
  login_password := Some "Tr0ub4dor&3xyz";
  login_adminToken := None
|}.

(** A token that claims the admin role for bob, whose stored role is [user]. *)
Definition bob_as_admin : Jwt.token :=
  Jwt.Signed {| Jwt.id := "6501b"; Jwt.role := Some "admin";
                Jwt.iat := 1000; Jwt.exp := 87400 |} "access-secret".

Definition carol_signup : RegisterBody := {|
  reg_username := Some "carol"; reg_email := Some "carol@example.com";
  reg_password := Some "swordfish"; reg_role := Some "moderator"
|}.

Definition bob_again_signup : RegisterBody := {|
  reg_username := Some "robert"; reg_email := Some "bob@example.com";
  reg_password := Some "swordfish"; reg_role := None
|}.

Definition dave_admin_signup : RegisterAdminBody := {|
  ra_username := Some "dave"; ra_email := Some "dave@example.com";
  ra_password := Some "Str0ng&Passw0rd"; ra_adminToken := Some "admin-secret"
|}.

Definition bob_login : LoginRequest := {|
  login_email := Some "bob@example.com";
  login_password := Some "battery staple";
  login_adminToken := None
|}.

Definition bob_wrong_login : LoginRequest := {|
  login_email := Some "bob@example.com";
  login_password := Some "battery stable";
  login_adminToken := None
|}.

(** A product of the catalog, a shopper's inquiry about it, and the same
    request as a form-filling bot sends it.  The sample database casts the
    strings of 24 hexadecimal digits to ObjectIds. *)
Definition sample_isObjectId (s : string) : bool :=
  (String.length s =? 24)%nat
  && forallb (λ c, Regex.digit c || Regex.between 97 102 c
                   || Regex.between 65 70 c)
       (String.list_ascii_of_string s).

Definition sample_products : list Whatsapp.product_doc :=
  [{| Whatsapp._id := "65a1b2c3d4e5f60718293a4b";
      Whatsapp.isActive := true |}].

Definition shopper_inquiry : Whatsapp.request := {|
  Whatsapp.id := "65a1b2c3d4e5f60718293a4b"; Whatsapp.captchaToken := None;
  Whatsapp.honeypot := None; Whatsapp.ip := "203.0.113.7";
  Whatsapp.user_agent := Some "Mozilla/5.0"; Whatsapp.user := None;
  Whatsapp.protocol := "https"; Whatsapp.host := "shop.example.com"
|}.


(** The shopper's request, arriving at [t] and finished 20 ms later. *)
Definition shopper_call (t : Z) : Whatsapp.call := {|
  Whatsapp.c_req := shopper_inquiry; Whatsapp.c_faults := Whatsapp.no_faults;
  Whatsapp.arrived := t; Whatsapp.counted := t + 10;
  Whatsapp.created := t + 20
|}.

(** No record in the limiter's store, no inquiry, nothing in flight. *)
Definition quiet_shop : Whatsapp.state := {|
  Whatsapp.store := ∅; Whatsapp.inquiries := []; Whatsapp.in_flight := []
|}.

(** A server started without the access-token secret. *)
Definition unsigned_env : Env := {|
  JWT_SECRET := None;
  JWT_REFRESH_SECRET := Some "refresh-secret";
  ADMIN_SECRET_TOKEN := Some "admin-secret"
|}.

(** * Properties *)

(** ** JavaScript tests *)

Lemma truthy_string_spec s : JS.truthy_string s = true ↔ s ≠ "".
Proof.
  unfold JS.truthy_string. rewrite negb_true_iff, String.eqb_neq. done.
Qed.

Lemma truthy_Some v : JS.truthy v = true ↔ ∃ s, v = Some s ∧ s ≠ "".
Proof.
  destruct v as [s|]; simpl.
  - rewrite truthy_string_spec. split.
    + intros Hs. by exists s.
    + by intros (s' & [= <-] & Hs).
  - split; [done | by intros (? & ? & ?)].
Qed.

Lemma strict_eq_spec a b : JS.strict_eq a b = true ↔ a = b.
Proof.
  destruct a as [x|], b as [y|]; simpl; try (split; congruence).
  rewrite String.eqb_eq. split; congruence.
Qed.

(** ** The rate limiter *)

Section RateLimitFacts.

Import RateLimit.

Implicit Types (store : gmap string record) (req : request) (r : record).

(** The four ways through the middleware. *)

Lemma rateLimit_absent maxRequests windowMs req now store :
  store !! identifier req = None →
  rateLimit maxRequests windowMs req now store
  = (Next, <[identifier req := fresh now windowMs]> store).
Proof. intros Hk. unfold rateLimit. simpl. by rewrite Hk. Qed.

Lemma rateLimit_expired maxRequests windowMs req now store r :
  store !! identifier req = Some r →
  now > resetTime r →
  rateLimit maxRequests windowMs req now store
  = (Next, <[identifier req := fresh now windowMs]> store).
Proof.
  intros Hk Hlate. unfold rateLimit. simpl. rewrite Hk.
  rewrite Z.gtb_ltb. destruct (Z.ltb_spec (resetTime r) now); [done | lia].
Qed.

Lemma rateLimit_admitted maxRequests windowMs req now store r :
  store !! identifier req = Some r →
  now ≤ resetTime r →
  count r < maxRequests →
  rateLimit maxRequests windowMs req now store
  = (Next, <[identifier req := bumped r]> store).
Proof.
  intros Hk Hin Hlt. unfold rateLimit. simpl. rewrite Hk.
  rewrite Z.gtb_ltb, Z.geb_leb.
  destruct (Z.ltb_spec (resetTime r) now); [lia |].
  destruct (Z.leb_spec maxRequests (count r)); [lia | done].
Qed.

Lemma rateLimit_denied maxRequests windowMs req now store r :
  store !! identifier req = Some r →
  now ≤ resetTime r →
  maxRequests ≤ count r →
  rateLimit maxRequests windowMs req now store = (Respond too_many, store).
Proof.
  intros Hk Hin Hge. unfold rateLimit. simpl. rewrite Hk.
  rewrite Z.gtb_ltb, Z.geb_leb.
  destruct (Z.ltb_spec (resetTime r) now); [lia |].
  destruct (Z.leb_spec maxRequests (count r)); [done | lia].
Qed.

(** Every run of the middleware is one of the four. *)
Lemma rateLimit_cases maxRequests windowMs req now store :
  (store !! identifier req = None
   ∧ rateLimit maxRequests windowMs req now store
     = (Next, <[identifier req := fresh now windowMs]> store))
  ∨ (∃ r, store !! identifier req = Some r ∧ now > resetTime r
     ∧ rateLimit maxRequests windowMs req now store
       = (Next, <[identifier req := fresh now windowMs]> store))
  ∨ (∃ r, store !! identifier req = Some r ∧ now ≤ resetTime r
     ∧ count r < maxRequests
     ∧ rateLimit maxRequests windowMs req now store
       = (Next, <[identifier req := bumped r]> store))
  ∨ (∃ r, store !! identifier req = Some r ∧ now ≤ resetTime r
     ∧ maxRequests ≤ count r
     ∧ rateLimit maxRequests windowMs req now store
       = (Respond too_many, store)).
Proof.
  destruct (store !! identifier req) as [r|] eqn:Hk.
  - destruct (decide (now > resetTime r)) as [Hlate|Hin].
    + right; left. exists r.
      repeat split; [done | by eapply rateLimit_expired].
    + destruct (decide (count r < maxRequests)) as [Hlt|Hge].
      * right; right; left. exists r.
        repeat split; [lia | done | eapply rateLimit_admitted; [done | lia | done]].
      * right; right; right. exists r.
        repeat split; [lia | lia | eapply rateLimit_denied; [done | lia | lia]].
  - left. split; [done | by apply rateLimit_absent].
Qed.

Lemma serve_cons maxRequests windowMs req now rest store :
  serve maxRequests windowMs ((req, now) :: rest) store
  = ((rateLimit maxRequests windowMs req now store).1
       :: (serve maxRequests windowMs rest
             (rateLimit maxRequests windowMs req now store).2).1,
     (serve maxRequests windowMs rest
        (rateLimit maxRequests windowMs req now store).2).2).
Proof.
  simpl. destruct (rateLimit _ _ _ _ _) as [v s1]. simpl.
  by destruct (serve _ _ _ _).
Qed.

Lemma within_limit_insert maxRequests store k r :
  count r ≤ maxRequests →
  within_limit maxRequests store →
  within_limit maxRequests (<[k := r]> store).
Proof.
  intros Hr Hs k' r'. rewrite lookup_insert.
  case_decide; [intros [= <-]; done | apply Hs].
Qed.

Lemma rateLimit_preserves_limit maxRequests windowMs req now store :
  1 ≤ maxRequests →
  within_limit maxRequests store →
  within_limit maxRequests (rateLimit maxRequests windowMs req now store).2.
Proof.
  intros Hmax Hs.
  destruct (rateLimit_cases maxRequests windowMs req now store)
    as [[_ ->] | [(r & _ & _ & ->) | [(r & _ & _ & Hlt & ->) | (r & _ & _ & _ & ->)]]];
    simpl; [| | | done].
  - by apply within_limit_insert.
  - by apply within_limit_insert.
  - apply within_limit_insert; [simpl; lia | done].
Qed.

Lemma serve_preserves_limit maxRequests windowMs calls store :
  1 ≤ maxRequests →
  within_limit maxRequests store →
  within_limit maxRequests (serve maxRequests windowMs calls store).2.
Proof.
  intros Hmax. revert store.
  induction calls as [|[req now] rest IH]; intros store Hs; [done |].
  rewrite serve_cons. simpl. apply IH.
  by apply rateLimit_preserves_limit.
Qed.

Lemma rateLimit_refines_check maxRequests windowMs req now store :
  rateLimit maxRequests windowMs req now store
  = check_spec (identifier req) maxRequests windowMs now store.
Proof.
  unfold check_spec.
  destruct (rateLimit_cases maxRequests windowMs req now store)
    as [[Hk ->] | [(r & Hk & Hlate & ->) | [(r & Hk & Hin & Hlt & ->)
                                           | (r & Hk & Hin & Hge & ->)]]];
    rewrite Hk; [done | | |].
  - by rewrite bool_decide_eq_true_2.
  - rewrite bool_decide_eq_false_2 by lia. by rewrite bool_decide_eq_true_2.
  - rewrite bool_decide_eq_false_2 by lia. by rewrite bool_decide_eq_false_2 by lia.
Qed.

Lemma three_then_denied_then_fresh req t0 t1 t2 t3 t4 store :
  store !! identifier req = None →
  t1 ≤ t0 + 1000 → t2 ≤ t0 + 1000 → t3 ≤ t0 + 1000 → t4 > t0 + 1000 →
  serve 3 1000 [(req, t0); (req, t1); (req, t2); (req, t3); (req, t4)] store
  = ([Next; Next; Next; Respond too_many; Next],
     <[identifier req := fresh t4 1000]>
       (<[identifier req := bumped (bumped (fresh t0 1000))]>
          (<[identifier req := bumped (fresh t0 1000)]>
             (<[identifier req := fresh t0 1000]> store)))).
Proof.
  intros Hk H1 H2 H3 H4.
  set (k := identifier req).
  set (s1 := <[k := fresh t0 1000]> store).
  set (s2 := <[k := bumped (fresh t0 1000)]> s1).
  set (s3 := <[k := bumped (bumped (fresh t0 1000))]> s2).
  assert (rateLimit 3 1000 req t0 store = (Next, s1)) as E0
    by (by apply rateLimit_absent).
  assert (rateLimit 3 1000 req t1 s1 = (Next, s2)) as E1.
  { eapply rateLimit_admitted; [apply lookup_insert_eq | simpl; lia..]. }
  assert (rateLimit 3 1000 req t2 s2 = (Next, s3)) as E2.
  { eapply rateLimit_admitted; [apply lookup_insert_eq | simpl; lia..]. }
  assert (rateLimit 3 1000 req t3 s3 = (Respond too_many, s3)) as E3.
  { eapply rateLimit_denied; [apply lookup_insert_eq | simpl; lia..]. }
  assert (rateLimit 3 1000 req t4 s3 = (Next, <[k := fresh t4 1000]> s3)) as E4.
  { eapply rateLimit_expired; [apply lookup_insert_eq | simpl; lia]. }
  cbn [serve]. by rewrite E0, E1, E2, E3, E4.
Qed.

(** C5: [rateLimit] is the specification's [check] on the key
    [req.user?.id || req.ip]: an absent key or [now > resetTime] starts a
    window [(1, now + windowMs)] and lets the request through, a count below
    the maximum is incremented and lets it through, anything else is answered
    with status 429.  With max 3 and a window of 1000 ms, three calls in the
    window pass, the fourth is refused, and a call after the window passes
    with a fresh count of 1. *)
Theorem rateLimit_check_and_scenario :
  (∀ maxRequests windowMs req now store,
     rateLimit maxRequests windowMs req now store
     = check_spec (identifier req) maxRequests windowMs now store)
  ∧ status too_many = 429
  ∧ (∀ req t0 t1 t2 t3 t4 store,
       store !! identifier req = None →
       t1 ≤ t0 + 1000 → t2 ≤ t0 + 1000 → t3 ≤ t0 + 1000 → t4 > t0 + 1000 →
       (serve 3 1000 [(req, t0); (req, t1); (req, t2); (req, t3); (req, t4)]
          store).1
       = [Next; Next; Next; Respond too_many; Next]
       ∧ (serve 3 1000 [(req, t0); (req, t1); (req, t2); (req, t3); (req, t4)]
            store).2 !! identifier req
         = Some {| count := 1; resetTime := t4 + 1000 |}).
Proof.
  split; [apply rateLimit_refines_check |]. split; [done |].
  intros req t0 t1 t2 t3 t4 store Hk H1 H2 H3 H4.
  rewrite (three_then_denied_then_fresh req t0 t1 t2 t3 t4 store) by done.
  split; [done | apply lookup_insert_eq].
Qed.

Lemma rateLimit_check_and_scenario_witness :
  (serve 3 1000
     [(a_client, 0); (a_client, 10); (a_client, 20); (a_client, 1000);
      (a_client, 1001)] ∅).1
  = [Next; Next; Next; Respond too_many; Next]
  ∧ (serve 3 1000
       [(a_client, 0); (a_client, 10); (a_client, 20); (a_client, 1000);
        (a_client, 1001)] ∅).2 !! identifier a_client
    = Some {| count := 1; resetTime := 2001 |}.
Proof.
  apply (proj2 (proj2 rateLimit_check_and_scenario) a_client 0 10 20 1000 1001 ∅);
    [reflexivity | lia..].
Defined.

(** C9, as the code has it: a check with a maximum of at least 1 keeps every
    count of the store at or below that maximum, so the counts of a store that
    one limiter serves from the start never exceed its maximum; and a check
    that finds the key's record with [now > resetTime] replaces it by a fresh
    window with count 1. *)
Theorem rateLimit_count_within_limit maxRequests windowMs :
  1 ≤ maxRequests →
  (∀ req now store,
     within_limit maxRequests store →
     within_limit maxRequests (rateLimit maxRequests windowMs req now store).2)
  ∧ (∀ calls, within_limit maxRequests (serve maxRequests windowMs calls ∅).2)
  ∧ (∀ req now store r,
       store !! identifier req = Some r →
       now > resetTime r →
       (rateLimit maxRequests windowMs req now store).2 !! identifier req
       = Some {| count := 1; resetTime := now + windowMs |}).
Proof.
  intros Hmax. repeat split.
  - intros req now store. by apply rateLimit_preserves_limit.
  - intros calls. by apply serve_preserves_limit.
  - intros req now store r Hk Hlate.
    erewrite rateLimit_expired by done. apply lookup_insert_eq.
Qed.

Lemma rateLimit_count_within_limit_witness :
  1 ≤ 3
  ∧ within_limit 3
      (serve 3 1000 [(a_client, 0); (a_client, 10); (a_client, 20);
                     (a_client, 30)] ∅).2.
Proof.
  split; [lia |].
  apply (proj1 (proj2 (rateLimit_count_within_limit 3 1000 ltac:(lia)))).
Defined.

(** C9 as stated fails: with a maximum of 0 the first request of a key is
    still let through and recorded with count 1. *)
Lemma rateLimit_count_exceeds_zero_limit :
  within_limit 0 ∅
  ∧ (rateLimit 0 1000 a_client 0 ∅).2 !! identifier a_client
    = Some {| count := 1; resetTime := 1000 |}
  ∧ ¬ within_limit 0 (rateLimit 0 1000 a_client 0 ∅).2.
Proof.
  split; [by intros k r; rewrite lookup_empty |].
  assert ((rateLimit 0 1000 a_client 0 ∅).2 !! identifier a_client
          = Some {| count := 1; resetTime := 1000 |}) as Hrec.
  { rewrite rateLimit_absent by apply lookup_empty. apply lookup_insert_eq. }
  split; [exact Hrec |].
  intros Hinv. specialize (Hinv _ _ Hrec). simpl in Hinv. lia.
Qed.

(** The store is shared by every limiter of the process: six product requests
    (limit 50 a minute) leave a count that the inquiry limiter (limit 5 an
    hour) then finds above its own maximum. *)
Lemma shared_store_count_above_other_limit :
  let store :=
    (serve 50 60000
       [(a_client, 0); (a_client, 1); (a_client, 2); (a_client, 3);
        (a_client, 4); (a_client, 5)] ∅).2 in
  whatsappLimiter a_client 6 store = (Respond too_many, store)
  ∧ store !! identifier a_client = Some {| count := 6; resetTime := 60000 |}.
Proof. vm_compute. done. Qed.

(** The sweep keeps exactly the records whose window has not expired, and a
    request is answered the same whether or not the sweep ran just before. *)
Lemma sweep_lookup now store k r :
  sweep now store !! k = Some r ↔ store !! k = Some r ∧ now ≤ resetTime r.
Proof.
  unfold sweep. rewrite map_lookup_filter_Some. simpl.
  split; (intros [Hk Hlive]; split; [done | lia]).
Qed.

Lemma rateLimit_after_sweep maxRequests windowMs req now store :
  (rateLimit maxRequests windowMs req now (sweep now store)).1
  = (rateLimit maxRequests windowMs req now store).1.
Proof.
  destruct (rateLimit_cases maxRequests windowMs req now store)
    as [[Hk ->] | [(r & Hk & Hlate & ->) | [(r & Hk & Hin & Hlt & ->)
                                           | (r & Hk & Hin & Hge & ->)]]].
  - rewrite rateLimit_absent; [done |].
    destruct (sweep now store !! identifier req) as [r|] eqn:Hs; [| done].
    apply sweep_lookup in Hs as [Hs _]. congruence.
  - rewrite rateLimit_absent; [done |].
    destruct (sweep now store !! identifier req) as [r'|] eqn:Hs; [| done].
    apply sweep_lookup in Hs as [Hs Hlive].
    assert (r' = r) as -> by congruence. lia.
  - erewrite rateLimit_admitted; [done | by apply sweep_lookup | done..].
  - erewrite rateLimit_denied; [done | by apply sweep_lookup | done..].
Qed.

(** C10: a refused request leaves the store as it was: when the key's window
    has not expired and its count has reached the maximum, the answer is 429
    and neither count nor resetTime of any record changes; and the store is
    unchanged whenever the middleware answers itself. *)
Theorem rateLimit_denied_store_unchanged maxRequests windowMs req now store :
  (∀ r, store !! identifier req = Some r →
        ¬ (now > resetTime r) →
        count r >= maxRequests →
        rateLimit maxRequests windowMs req now store = (Respond too_many, store)
        ∧ status too_many = 429)
  ∧ (∀ response,
       (rateLimit maxRequests windowMs req now store).1 = Respond response →
       (rateLimit maxRequests windowMs req now store).2 = store).
Proof.
  split.
  - intros r Hk Hin Hge. split; [| done].
    eapply rateLimit_denied; [done | lia..].
  - intros response.
    destruct (rateLimit_cases maxRequests windowMs req now store)
      as [[_ ->] | [(r & _ & _ & ->) | [(r & _ & _ & _ & ->)
                                       | (r & _ & _ & _ & ->)]]];
      simpl; done.
Qed.

Lemma rateLimit_denied_store_unchanged_witness :
  rateLimit 3 1000 a_client 500
    {[ identifier a_client := {| count := 3; resetTime := 1000 |} ]}
  = (Respond too_many,
     {[ identifier a_client := {| count := 3; resetTime := 1000 |} ]})
  ∧ status too_many = 429.
Proof.
  apply (proj1 (rateLimit_denied_store_unchanged 3 1000 a_client 500
                  {[ identifier a_client := {| count := 3; resetTime := 1000 |} ]})
           {| count := 3; resetTime := 1000 |});
    [apply lookup_singleton_eq | simpl; lia | simpl; lia].
Defined.

End RateLimitFacts.

(** ** The handlers *)

Section HandlerFacts.

Context {deps : Collaborators}.

(** Running a handler: unfold the statements down to the state function. *)
Ltac run :=
  unfold respond, register, login, refresh, logout, logout_handler, protect,
    User_findOne, User_findOne_or, User_findById, User_findByIdAndUpdate_pull,
    User_create, save_refreshTokens, matchPassword, incrementLoginAttempts,
    resetLoginAttempts, try_catch, when, return_, throw, lift, log, get_users,
    put_users, mbind, M_bind, mret, M_ret;
  cbn beta iota zeta.

(** C1, as the code has it: a self-registration whose body carries role=admin
    is refused whatever the other fields hold; the user model is not called,
    no user record is created, and the response has status 403. *)
Theorem register_admin_role_rejected (body : RegisterBody) (w : World) :
  reg_role body = Some "admin" →
  respond (register body) w
  = (Some (status_json 403 false
             "Admin registration not allowed through this endpoint"), w).
Proof.
  intros Hrole. run. rewrite Hrole. reflexivity.
Qed.

(** *** Facts on the collection *)

Lemma find_updateOne_same id (f : User.doc → User.doc) db :
  (∀ u, User._id (f u) = User._id u) →
  find (λ u, String.eqb (User._id u) id) (updateOne id f db)
  = f <$> find (λ u, String.eqb (User._id u) id) db.
Proof.
  intros Hf. induction db as [|u rest IH]; [done |]. simpl.
  destruct (String.eqb (User._id u) id) eqn:Hu; simpl.
  - by rewrite Hf, Hu.
  - by rewrite Hu.
Qed.

Lemma find_updateOne_other id id' (f : User.doc → User.doc) db :
  (∀ u, User._id (f u) = User._id u) →
  id ≠ id' →
  find (λ u, String.eqb (User._id u) id') (updateOne id f db)
  = find (λ u, String.eqb (User._id u) id') db.
Proof.
  intros Hf Hne. induction db as [|u rest IH]; [done |]. simpl.
  destruct (String.eqb (User._id u) id) eqn:Hu; simpl.
  - rewrite Hf. apply String.eqb_eq in Hu. subst id.
    destruct (String.eqb_spec (User._id u) id'); [done | done].
  - by rewrite IH.
Qed.

Lemma find_by_email_has_id email db user :
  find (λ u, String.eqb (User.email u) email) db = Some user →
  is_Some (find (λ u, String.eqb (User._id u) (User._id user)) db).
Proof.
  induction db as [|u rest IH]; [done |]. simpl.
  destruct (String.eqb (User.email u) email).
  - intros [= ->]. rewrite String.eqb_refl. by eexists.
  - intros Hrest. destruct (String.eqb (User._id u) (User._id user));
      [by eexists | by apply IH].
Qed.

(** *** Login *)

Lemma truthy_Some_ne s : s ≠ "" → JS.truthy (Some s) = true.
Proof. intros Hs. by apply truthy_string_spec. Qed.

(** C2: a login against an account whose lock-until lies in the future (with
    the right admin token when the account is an admin) is answered with
    status 423; the collection is left as it was, so neither the counter nor
    lock-until changes, and the only call on the user model is the lookup by
    email: the password is not compared, whatever it is. *)
Theorem login_locked_account env now body w email password user t :
  login_email body = Some email → email ≠ "" →
  login_password body = Some password → password ≠ "" →
  find (λ u, String.eqb (User.email u) email) (users w) = Some user →
  User.lockUntil user = Some t → t > now →
  (User.role user = "admin" →
   JS.truthy (login_adminToken body) = true
   ∧ login_adminToken body = ADMIN_SECRET_TOKEN env) →
  respond (login env now body) w
  = (Some (status_json 423 false
       "Account locked due to too many failed login attempts. Try again later."),
     {| users := users w; calls := calls w ++ [FindOne email] |}).
Proof.
  intros Hemail Hne Hpw Hpne Hfind Hlock Hfuture Hadmin.
  run. rewrite Hemail, Hpw, !truthy_Some_ne by done.
  simpl. rewrite Hfind.
  assert (User.isLocked user now = true) as ->.
  { unfold User.isLocked. rewrite Hlock. lia. }
  destruct (String.eqb_spec (User.role user) "admin") as [Hrole|_]; [| done].
  destruct (Hadmin Hrole) as [-> Heq].
  by rewrite (proj2 (strict_eq_spec _ _) Heq).
Qed.

(** C3: a login to an admin account without the admin token, or with one
    that is not the configured secret, calls [incrementLoginAttempts] on the
    account and answers 403; the calls on the user model are the lookup and
    the increment, so the password is not compared, and the stored counter of
    the account is one more than before. *)
Theorem login_admin_without_token env now body w email password user :
  login_email body = Some email → email ≠ "" →
  login_password body = Some password → password ≠ "" →
  find (λ u, String.eqb (User.email u) email) (users w) = Some user →
  User.role user = "admin" →
  JS.truthy (login_adminToken body) = false
  ∨ login_adminToken body ≠ ADMIN_SECRET_TOKEN env →
  ∃ w',
    respond (login env now body) w
    = (Some (status_json 403 false "Admin token required for admin login"), w')
    ∧ calls w'
      = (calls w ++ [FindOne email; IncrementLoginAttempts (User._id user)])%list
    ∧ ∃ before after,
        find (λ u, String.eqb (User._id u) (User._id user)) (users w)
        = Some before
        ∧ find (λ u, String.eqb (User._id u) (User._id user)) (users w')
          = Some after
        ∧ User.loginAttempts after = User.loginAttempts before + 1.
Proof.
  intros Hemail Hne Hpw Hpne Hfind Hrole Htoken.
  destruct (find_by_email_has_id _ _ _ Hfind) as [before Hbefore].
  eexists. split; [| split].
  - run. rewrite Hemail, Hpw, !truthy_Some_ne by done.
    simpl. rewrite Hfind, Hrole. simpl.
    assert (negb (JS.truthy (login_adminToken body))
            || negb (JS.strict_eq (login_adminToken body)
                       (ADMIN_SECRET_TOKEN env)) = true) as ->.
    { destruct Htoken as [-> | Hneq]; [done |].
      apply orb_true_iff. right. apply negb_true_iff.
      destruct (JS.strict_eq _ _) eqn:Heq; [| done].
      by apply strict_eq_spec in Heq. }
    reflexivity.
  - simpl. by rewrite <- app_assoc.
  - exists before. eexists. split; [done |]. split.
    + simpl. rewrite find_updateOne_same by done. by rewrite Hbefore.
    + simpl. done.
Qed.

(** *** Refresh *)

Lemma verify_Ok_truthy t secret now decoded :
  Jwt.verify t secret now = Ok decoded → Jwt.truthy t = true.
Proof. destruct t as [[[|a s]|payload key]|]; simpl; done. Qed.

Lemma tokenExists_spec (t : Jwt.token) (l : list User.refreshToken) :
  existsb (λ r, bool_decide (Some (User.token r) = Some t)) l = true
  ↔ t ∈ User.token <$> l.
Proof.
  induction l as [|r l IH]; simpl.
  - split; [done | by intros ?%elem_of_nil].
  - rewrite orb_true_iff, IH, bool_decide_eq_true, elem_of_cons.
    split; (intros [Hr | ?]; [left; congruence | by right]).
Qed.

Lemma generateAccessToken_configured env now userId role :
  JS.truthy (JWT_SECRET env) = true →
  ∃ key,
    JWT_SECRET env = Some key
    ∧ generateAccessToken env now userId role
      = Ok (Jwt.Signed {| Jwt.id := userId; Jwt.role := Some role;
                          Jwt.iat := Jwt.clockTimestamp now;
                          Jwt.exp := Jwt.clockTimestamp now + one_day |} key).
Proof.
  intros (key & Hkey & Hne)%truthy_Some. exists key. split; [done |].
  unfold generateAccessToken, Jwt.sign. rewrite Hkey.
  by rewrite (proj2 (truthy_string_spec key) Hne).
Qed.

(** C4: with the access-token secret configured, a refresh request whose token
    verifies under the refresh secret succeeds exactly when the subject user
    exists, is active and holds the literal token in its list.  It then
    answers with a newly issued access token and nothing else: the token is
    signed now with the access secret, for the user's id and stored role,
    and expires a day later.  Otherwise the answer is 401.  In every case the
    collection, and with it every refresh-token list, is left as it was. *)
Theorem refresh_accepts_listed_tokens env now t decoded w :
  JS.truthy (JWT_SECRET env) = true →
  Jwt.verify (Some t) (JWT_REFRESH_SECRET env) now = Ok decoded →
  ∃ key response w',
    JWT_SECRET env = Some key
    ∧ respond (refresh env now (Some t)) w = (Some response, w')
    ∧ users w' = users w
    ∧ (success response = true
       ↔ refresh_accepted (users w) (Jwt.id decoded) t)
    ∧ (success response = true →
       ∃ user accessToken,
         find (λ u, String.eqb (User._id u) (Jwt.id decoded)) (users w)
         = Some user
         ∧ generateAccessToken env now (User._id user) (User.role user)
           = Ok accessToken
         ∧ accessToken
           = Jwt.Signed {| Jwt.id := User._id user;
                           Jwt.role := Some (User.role user);
                           Jwt.iat := Jwt.clockTimestamp now;
                           Jwt.exp := Jwt.clockTimestamp now + one_day |} key
         ∧ response = json (RefreshBody accessToken))
    ∧ (success response = false → status response = 401).
Proof.
  intros Hsecret Hverify. unfold refresh_accepted.
  destruct (proj1 (truthy_Some _) Hsecret) as (key & Hkey & _).
  run. rewrite (verify_Ok_truthy _ _ _ _ Hverify), Hverify. simpl.
  destruct (find _ (users w)) as [user|] eqn:Hfind; simpl.
  - destruct (User.isActive user) eqn:Hactive; simpl.
    + destruct (existsb _ (User.refreshTokens user)) eqn:Hexists; simpl.
      * destruct (generateAccessToken_configured env now (User._id user)
                    (User.role user) Hsecret) as (key' & Hkey' & Hgen).
        assert (key' = key) as -> by congruence.
        rewrite Hgen. exists key. do 2 eexists.
        split; [done |]. split; [done |]. split; [done |]. split; [| split].
        -- split; [intros _ | done]. exists user.
           by rewrite <- tokenExists_spec.
        -- intros _. exists user. eexists. by rewrite Hgen.
        -- done.
      * exists key; do 2 eexists.
        split; [done |]. split; [done |]. split; [done |].
        split; [| split; done].
        split; [done |]. intros (user' & [= <-] & _ & Hin).
        apply tokenExists_spec in Hin. congruence.
    + exists key; do 2 eexists.
      split; [done |]. split; [done |]. split; [done |].
      split; [| split; done].
      split; [done |]. intros (user' & [= <-] & Hact & _). congruence.
  - exists key; do 2 eexists.
    split; [done |]. split; [done |]. split; [done |].
    split; [| split; done].
    split; [done |]. by intros (user' & [=] & _).
Qed.

(** C6, as the code has it: a refresh never leaves the client without an
    answer; it succeeds with status 200, or fails with status 401 when the
    refreshToken field is present and with status 400 when the field is
    missing or empty. *)
Theorem refresh_failure_status env now refreshToken w :
  ∃ response w',
    respond (refresh env now refreshToken) w = (Some response, w')
    ∧ ((success response = true ∧ status response = 200)
       ∨ (success response = false
          ∧ status response = if Jwt.truthy refreshToken then 401 else 400)).
Proof.
  run. destruct (Jwt.truthy refreshToken); simpl;
    [| do 2 eexists; split; [done | by right]].
  destruct (Jwt.verify _ _ _) as [decoded|e]; simpl;
    [| do 2 eexists; split; [done | by right]].
  destruct (find _ _) as [user|]; simpl;
    [| do 2 eexists; split; [done | by right]].
  destruct (User.isActive user); simpl;
    [| do 2 eexists; split; [done | by right]].
  destruct (existsb _ _); simpl;
    [| do 2 eexists; split; [done | by right]].
  destruct (generateAccessToken _ _ _ _); simpl;
    do 2 eexists; (split; [done |]); [by left | by right].
Qed.

(** *** Logout *)

Lemma filter_absent (t : Jwt.token) (l : list User.refreshToken) :
  t ∉ User.token <$> l → filter (λ r, User.token r ≠ t) l = l.
Proof.
  induction l as [|r l IH]; [done |]. rewrite fmap_cons, not_elem_of_cons.
  intros [Hr Hl]. rewrite filter_cons. rewrite decide_True by done.
  by rewrite IH.
Qed.

Lemma filter_pulled (t : Jwt.token) (l : list User.refreshToken) :
  t ∉ User.token <$> filter (λ r, User.token r ≠ t) l.
Proof.
  rewrite list_elem_of_fmap. intros (r & -> & Hr%list_elem_of_filter).
  by destruct Hr.
Qed.

Lemma pull_absent t u :
  t ∉ User.token <$> User.refreshTokens u → pull t u = u.
Proof.
  intros Hin. unfold pull. rewrite filter_absent by done. by destruct u.
Qed.

Lemma pull_pull t u : pull t (pull t u) = pull t u.
Proof. apply pull_absent. simpl. apply filter_pulled. Qed.

Lemma updateOne_fixed id (f : User.doc → User.doc) db :
  (∀ u, find (λ u, String.eqb (User._id u) id) db = Some u → f u = u) →
  updateOne id f db = db.
Proof.
  induction db as [|u rest IH]; [done |]. simpl.
  destruct (String.eqb (User._id u) id); intros Hf.
  - by rewrite Hf.
  - by rewrite IH.
Qed.

Lemma updateOne_twice id (f : User.doc → User.doc) db :
  (∀ u, User._id (f u) = User._id u) →
  (∀ u, f (f u) = f u) →
  updateOne id f (updateOne id f db) = updateOne id f db.
Proof.
  intros Hid Hff. induction db as [|u rest IH]; [done |]. simpl.
  destruct (String.eqb (User._id u) id) eqn:Hu; simpl.
  - by rewrite Hid, Hu, Hff.
  - by rewrite Hu, IH.
Qed.

#[local] Arguments Jwt.verify : simpl never.
#[local] Arguments Jwt.truthy : simpl never.

(** What it takes to pass the access guard, and what passing leaves. *)
Lemma protect_no_token env now w :
  (protect env now NoHeader w).1
  = Returned (status_json 401 false "Not authorized, no token provided")
  ∧ ∀ header,
      (protect env now (NotBearer header) w).1
      = Returned (status_json 401 false "Not authorized, no token provided").
Proof. done. Qed.

Lemma protect_passes_inv env now auth w caller :
  (protect env now auth w).1 = Normal caller →
  ∃ t decoded user,
    auth = Bearer t
    ∧ Jwt.verify (Some t) (JWT_SECRET env) now = Ok decoded
    ∧ find (λ u, String.eqb (User._id u) (Jwt.id decoded)) (users w)
      = Some user
    ∧ User.isActive user = true
    ∧ caller = {| ru_id := Jwt.id decoded; ru_role := Jwt.role decoded |}.
Proof.
  destruct auth as [| header | t];
    [by rewrite (proj1 (protect_no_token env now w))
    | by rewrite (proj2 (protect_no_token env now w)) |].
  run. destruct (Jwt.truthy (Some t)); simpl; [| done].
  destruct (Jwt.verify _ _ _) as [decoded|e] eqn:Hverify; simpl;
    [| by destruct (String.eqb _ _)].
  destruct (find _ _) as [user|] eqn:Hfind; simpl; [| done].
  destruct (User.isActive user) eqn:Hactive; simpl; [| done].
  intros [= <-]. by exists t, decoded, user.
Qed.

Lemma protect_passes env now t decoded user w :
  Jwt.verify (Some t) (JWT_SECRET env) now = Ok decoded →
  find (λ u, String.eqb (User._id u) (Jwt.id decoded)) (users w) = Some user →
  User.isActive user = true →
  protect env now (Bearer t) w
  = (Normal {| ru_id := Jwt.id decoded; ru_role := Jwt.role decoded |},
     {| users := users w; calls := calls w ++ [FindById (Jwt.id decoded)] |}).
Proof.
  intros Hverify Hfind Hactive. run.
  rewrite (verify_Ok_truthy _ _ _ _ Hverify), Hverify. simpl.
  by rewrite Hfind, Hactive.
Qed.

(** The logout route for a caller who passes the guard. *)
Lemma logout_authenticated env now t decoded user refreshToken w :
  Jwt.verify (Some t) (JWT_SECRET env) now = Ok decoded →
  find (λ u, String.eqb (User._id u) (Jwt.id decoded)) (users w) = Some user →
  User.isActive user = true →
  ∃ log',
    respond (logout env now (Bearer t) refreshToken) w
    = (Some logged_out,
       {| users := match refreshToken with
                   | Some rt =>
                       if Jwt.truthy refreshToken
                       then updateOne (Jwt.id decoded) (pull rt) (users w)
                       else users w
                   | None => users w
                   end;
          calls := log' |}).
Proof.
  intros Hverify Hfind Hactive.
  unfold respond, logout, mbind, M_bind.
  rewrite (protect_passes env now t decoded user w) by done.
  run. destruct refreshToken as [rt|]; [| by eexists].
  destruct (Jwt.truthy (Some rt)); by eexists.
Qed.

(** C7: for a caller who passes the access guard, logout answers
    [{success: true}] whether or not the refresh token is in the caller's
    list, and answers the same when repeated; the repeated call leaves every
    refresh-token list as the first call left it, and a call whose token is
    missing, empty or absent from the caller's list leaves the collection as
    it was. *)
Theorem logout_idempotent env now auth refreshToken w caller :
  (protect env now auth w).1 = Normal caller →
  ∃ w1 w2,
    respond (logout env now auth refreshToken) w = (Some logged_out, w1)
    ∧ respond (logout env now auth refreshToken) w1 = (Some logged_out, w2)
    ∧ users w2 = users w1
    ∧ (∀ doc,
         find (λ u, String.eqb (User._id u) (ru_id caller)) (users w)
         = Some doc →
         (∀ rt, refreshToken = Some rt →
                rt ∉ User.token <$> User.refreshTokens doc) →
         users w1 = users w).
Proof.
  intros (t & decoded & user & -> & Hverify & Hfind & Hactive & ->)
    %protect_passes_inv.
  destruct (logout_authenticated env now t decoded user refreshToken w)
    as [log1 Hfirst]; [done..|].
  set (w1 := {| users := _; calls := log1 |}) in Hfirst.
  assert (∃ user1,
            find (λ u, String.eqb (User._id u) (Jwt.id decoded)) (users w1)
            = Some user1 ∧ User.isActive user1 = true) as (user1 & Hfind1 & Hact1).
  { subst w1. simpl. destruct refreshToken as [rt|]; [| by exists user].
    destruct (Jwt.truthy (Some rt)); [| by exists user].
    rewrite find_updateOne_same by done. rewrite Hfind. by eexists. }
  destruct (logout_authenticated env now t decoded user1 refreshToken w1)
    as [log2 Hsecond]; [done..|].
  do 2 eexists. split; [exact Hfirst |]. split; [exact Hsecond |]. split.
  - subst w1. simpl. destruct refreshToken as [rt|]; [| done].
    destruct (Jwt.truthy (Some rt)); [| done].
    apply updateOne_twice; [done | apply pull_pull].
  - intros doc Hdoc Habsent. subst w1. simpl in *.
    destruct refreshToken as [rt|]; [| done].
    destruct (Jwt.truthy (Some rt)); [| done].
    apply updateOne_fixed. intros u Hu. apply pull_absent.
    assert (u = doc) as -> by congruence. by apply Habsent.
Qed.

(** *** The token issuer *)

Lemma verify_signed payload key now :
  key ≠ "" →
  Jwt.clockTimestamp now < Jwt.exp payload →
  Jwt.verify (Some (Jwt.Signed payload key)) (Some key) now = Ok payload.
Proof.
  intros Hkey Hbefore. unfold Jwt.verify.
  rewrite truthy_Some_ne by done. simpl. rewrite String.eqb_refl. simpl.
  rewrite Z.geb_leb. by destruct (Z.leb_spec (Jwt.exp payload)
                                    (Jwt.clockTimestamp now)); [lia |].
Qed.

(** C8: with the secrets configured, the access token issued for a user id
    and role verifies under the access-token secret, at any time before its
    expiry one day later, to the claims [{id, role}] (with the [iat] and
    [exp] the library adds); the refresh token verifies under the
    refresh-token secret, before its expiry seven days later, to [{id}]. *)
Theorem token_round_trip env now later userId role :
  JS.truthy (JWT_SECRET env) = true →
  JS.truthy (JWT_REFRESH_SECRET env) = true →
  (Jwt.clockTimestamp later < Jwt.clockTimestamp now + one_day →
   ∃ accessToken,
     generateAccessToken env now userId role = Ok accessToken
     ∧ Jwt.verify (Some accessToken) (JWT_SECRET env) later
       = Ok {| Jwt.id := userId; Jwt.role := Some role;
               Jwt.iat := Jwt.clockTimestamp now;
               Jwt.exp := Jwt.clockTimestamp now + one_day |})
  ∧ (Jwt.clockTimestamp later < Jwt.clockTimestamp now + seven_days →
     ∃ refreshToken,
       generateRefreshToken env now userId = Ok refreshToken
       ∧ Jwt.verify (Some refreshToken) (JWT_REFRESH_SECRET env) later
         = Ok {| Jwt.id := userId; Jwt.role := None;
                 Jwt.iat := Jwt.clockTimestamp now;
                 Jwt.exp := Jwt.clockTimestamp now + seven_days |}).
Proof.
  intros (akey & Ha & Hane)%truthy_Some (rkey & Hr & Hrne)%truthy_Some.
  split; intros Hbefore.
  - destruct (generateAccessToken_configured env now userId role)
      as (key & Hkey & ->); [by rewrite Ha; apply truthy_Some_ne |].
    eexists. split; [done |]. rewrite Hkey. apply verify_signed; [| done].
    congruence.
  - unfold generateRefreshToken, Jwt.sign. rewrite Hr.
    rewrite (proj2 (truthy_string_spec rkey) Hrne).
    eexists. split; [done |]. by apply verify_signed.
Qed.

End HandlerFacts.

(** ** The properties at the sample data *)

Lemma register_admin_role_rejected_witness :
  reg_role admin_signup = Some "admin"
  ∧ respond (register (deps := sample_collaborators) admin_signup) empty_world
    = (Some (status_json 403 false
               "Admin registration not allowed through this endpoint"),
       empty_world).
Proof.
  split; [reflexivity |].
  apply (@register_admin_role_rejected sample_collaborators admin_signup
           empty_world).
  reflexivity.
Defined.

(** C1 as stated fails: the refusal of a role=admin signup has status 403,
    not 400. *)
Lemma register_admin_role_status_is_not_400 :
  ∃ response,
    (respond (register (deps := sample_collaborators) admin_signup) empty_world).1
    = Some response
    ∧ status response = 403
    ∧ status response ≠ 400.
Proof. eexists. split; [reflexivity |]. split; [reflexivity | done]. Qed.

Lemma login_locked_account_witness :
  bcrypt_compare (Collaborators := sample_collaborators) "correct horse"
    (User.password alice) = true
  ∧ respond (login (deps := sample_collaborators) sample_env 1000000 alice_login)
      sample_world
    = (Some (status_json 423 false
         "Account locked due to too many failed login attempts. Try again later."),
       {| users := users sample_world;
          calls := calls sample_world ++ [FindOne "alice@example.com"] |}).
Proof.
  split; [reflexivity |].
  apply (@login_locked_account sample_collaborators sample_env 1000000
           alice_login sample_world "alice@example.com" "correct horse" alice
           2000000);
    [reflexivity | discriminate | reflexivity | discriminate | reflexivity
    | reflexivity | lia | discriminate].
Defined.

Lemma login_admin_without_token_witness :
  ∃ w',
    respond (login (deps := sample_collaborators) sample_env 1000000 root_login)
      sample_world
    = (Some (status_json 403 false "Admin token required for admin login"), w')
    ∧ calls w'
      = (calls sample_world
         ++ [FindOne "root@example.com"; IncrementLoginAttempts (User._id root)])%list
    ∧ ∃ before after,
        find (λ u, String.eqb (User._id u) (User._id root)) (users sample_world)
        = Some before
        ∧ find (λ u, String.eqb (User._id u) (User._id root)) (users w')
          = Some after
        ∧ User.loginAttempts after = User.loginAttempts before + 1.
Proof.
  apply (@login_admin_without_token sample_collaborators sample_env 1000000
           root_login sample_world "root@example.com" "Tr0ub4dor&3xyz" root);
    [reflexivity | discriminate | reflexivity | discriminate | reflexivity
    | reflexivity | left; reflexivity].
Defined.

Lemma refresh_accepts_listed_tokens_witness :
  ∃ key response w',
    JWT_SECRET sample_env = Some key
    ∧ respond (refresh sample_env 1000000 (Some bob_refresh)) sample_world
      = (Some response, w')
    ∧ users w' = users sample_world
    ∧ (success response = true
       ↔ refresh_accepted (users sample_world) "6501b" bob_refresh)
    ∧ (success response = true →
       ∃ user accessToken,
         find (λ u, String.eqb (User._id u) "6501b") (users sample_world)
         = Some user
         ∧ generateAccessToken sample_env 1000000 (User._id user)
             (User.role user) = Ok accessToken
         ∧ accessToken
           = Jwt.Signed {| Jwt.id := User._id user;
                           Jwt.role := Some (User.role user);
                           Jwt.iat := 1000; Jwt.exp := 87400 |} key
         ∧ response = json (RefreshBody accessToken))
    ∧ (success response = false → status response = 401).
Proof.
  apply (refresh_accepts_listed_tokens sample_env 1000000 bob_refresh
           {| Jwt.id := "6501b"; Jwt.role := None;
              Jwt.iat := 1000; Jwt.exp := 605800 |} sample_world);
    reflexivity.
Defined.

(** C6 as stated fails: a refresh request without the refreshToken field is
    answered with status 400, not 401. *)
Lemma refresh_missing_token_status_is_not_401 :
  respond (refresh sample_env 1000000 None) sample_world
  = (Some (status_json 400 false "Refresh token required"), sample_world)
  ∧ status (status_json 400 false "Refresh token required") ≠ 401.
Proof. split; [reflexivity | done]. Qed.

Lemma logout_idempotent_witness :
  (protect sample_env 1000000 (Bearer bob_access) sample_world).1
  = Normal {| ru_id := "6501b"; ru_role := Some "user" |}
  ∧ ∃ w1 w2,
      respond (logout sample_env 1000000 (Bearer bob_access) (Some bob_refresh))
        sample_world = (Some logged_out, w1)
      ∧ respond (logout sample_env 1000000 (Bearer bob_access) (Some bob_refresh))
          w1 = (Some logged_out, w2)
      ∧ users w2 = users w1
      ∧ (∀ doc,
           find (λ u, String.eqb (User._id u) "6501b") (users sample_world)
           = Some doc →
           (∀ rt, Some bob_refresh = Some rt →
                  rt ∉ User.token <$> User.refreshTokens doc) →
           users w1 = users sample_world).
Proof.
  split; [reflexivity |].
  apply (logout_idempotent sample_env 1000000 (Bearer bob_access)
           (Some bob_refresh) sample_world
           {| ru_id := "6501b"; ru_role := Some "user" |}).
  reflexivity.
Defined.

Lemma token_round_trip_witness :
  (∃ accessToken,
     generateAccessToken sample_env 1000000 "6501b" "user" = Ok accessToken
     ∧ Jwt.verify (Some accessToken) (JWT_SECRET sample_env) 1000000
       = Ok {| Jwt.id := "6501b"; Jwt.role := Some "user";
               Jwt.iat := 1000; Jwt.exp := 87400 |})
  ∧ (∃ refreshToken,
       generateRefreshToken sample_env 1000000 "6501b" = Ok refreshToken
       ∧ Jwt.verify (Some refreshToken) (JWT_REFRESH_SECRET sample_env) 1000000
         = Ok {| Jwt.id := "6501b"; Jwt.role := None;
                 Jwt.iat := 1000; Jwt.exp := 605800 |}).
Proof.
  destruct (token_round_trip sample_env 1000000 1000000 "6501b" "user")
    as [Haccess Hrefresh]; [reflexivity | reflexivity |].
  split; [apply Haccess | apply Hrefresh]; reflexivity.
Defined.

(** ** End-to-end runs on the sample data *)

(** bob logs in with the right password: the counter stays at zero, and the
    refresh token of the answer is appended to his list. *)
Example bob_logs_in :
  let '(response, w') :=
    respond (login (deps := sample_collaborators) sample_env 5000000
               {| login_email := Some "bob@example.com";
                  login_password := Some "battery staple";
                  login_adminToken := None |}) sample_world in
  status <$> response = Some 200
  ∧ (User.refreshTokens
       <$> find (λ u, String.eqb (User._id u) "6501b") (users w'))
    = Some [{| User.token := bob_refresh; User.createdAt := 1000000 |};
            {| User.token :=
                 Jwt.Signed {| Jwt.id := "6501b"; Jwt.role := None;
                               Jwt.iat := 5000; Jwt.exp := 609800 |}
                   "refresh-secret";
               User.createdAt := 5000000 |}].
Proof. vm_compute. done. Qed.

(** Once bob has logged out with his refresh token, a refresh with that token
    is refused although its signature and expiry are still good. *)
Example refresh_after_logout_refused :
  let w1 :=
    (respond (logout sample_env 1000000 (Bearer bob_access) (Some bob_refresh))
       sample_world).2 in
  Jwt.verify (Some bob_refresh) (JWT_REFRESH_SECRET sample_env) 1000000
  = Ok {| Jwt.id := "6501b"; Jwt.role := None;
          Jwt.iat := 1000; Jwt.exp := 605800 |}
  ∧ (respond (refresh sample_env 1000000 (Some bob_refresh)) w1).1
    = Some (status_json 401 false "Invalid refresh token").
Proof. vm_compute. done. Qed.

(** A refresh token does not pass the access guard, nor an access token the
    refresh route: the two secrets differ. *)
Example tokens_are_not_interchangeable :
  (protect sample_env 1000000 (Bearer bob_refresh) sample_world).1
  = Returned (status_json 401 false "Not authorized, invalid token")
  ∧ (respond (refresh sample_env 1000000 (Some bob_access)) sample_world).1
    = Some (status_json 401 false "Invalid or expired refresh token").
Proof. vm_compute. done. Qed.

(** * Further properties *)

(** ** The rate limiter: isolation, quota and sweep *)

Section RateLimitMore.

Import RateLimit.

Implicit Types (store : gmap string record) (req : request) (r : record).

Lemma rateLimit_other_key maxRequests windowMs req now store k :
  k ≠ identifier req →
  (rateLimit maxRequests windowMs req now store).2 !! k = store !! k.
Proof.
  intros Hk.
  destruct (rateLimit_cases maxRequests windowMs req now store)
    as [[_ ->] | [(r & _ & _ & ->) | [(r & _ & _ & _ & ->)
                                     | (r & _ & _ & _ & ->)]]];
    simpl; [| | | done]; by rewrite lookup_insert_ne.
Qed.

(** X1: a limiter touches only the record of the key it is asked about: a
    key that none of the served requests carries keeps its record, or its
    absence, whatever the other clients do. *)
Theorem serve_other_keys maxRequests windowMs calls store k :
  Forall (λ c : request * Z, identifier c.1 ≠ k) calls →
  (serve maxRequests windowMs calls store).2 !! k = store !! k.
Proof.
  revert store. induction calls as [|[req now] rest IH]; intros store Hk;
    [done |].
  apply Forall_cons in Hk as [Hreq Hrest]. simpl in Hreq.
  rewrite serve_cons. simpl. rewrite IH by done.
  by apply rateLimit_other_key.
Qed.

Lemma serve_other_keys_witness :
  (serve 3 1000 [(a_client, 0); (a_client, 10)]
     {[ "198.51.100.2" := {| count := 2; resetTime := 500 |} ]}).2
    !! "198.51.100.2"
  = ({[ "198.51.100.2" := {| count := 2; resetTime := 500 |} ]}
       : gmap string record) !! "198.51.100.2".
Proof.
  apply (serve_other_keys 3 1000 [(a_client, 0); (a_client, 10)]
           {[ "198.51.100.2" := {| count := 2; resetTime := 500 |} ]}
           "198.51.100.2").
  repeat constructor; discriminate.
Defined.

Lemma admitted_for_cons k c calls v verdicts :
  admitted_for k (c :: calls) (v :: verdicts)
  = (if bool_decide (identifier c.1 = k) && is_next v then 1 else 0)
    + admitted_for k calls verdicts.
Proof.
  unfold admitted_for. simpl.
  destruct (bool_decide (identifier c.1 = k) && is_next v); simpl; lia.
Qed.

Lemma requests_of_cons k c calls :
  requests_of k (c :: calls)
  = (if bool_decide (identifier c.1 = k) then 1 else 0) + requests_of k calls.
Proof.
  unfold requests_of. simpl.
  destruct (bool_decide (identifier c.1 = k)); simpl; lia.
Qed.

Lemma requests_of_nonneg k calls : 0 ≤ requests_of k calls.
Proof. unfold requests_of. lia. Qed.

(** Inside the window of a record, the key is let through until the count
    reaches the maximum, and its window does not move. *)
Lemma serve_in_window maxRequests windowMs k calls store r :
  store !! k = Some r →
  Forall (λ c : request * Z, identifier c.1 = k → c.2 ≤ resetTime r) calls →
  let n := Z.min (requests_of k calls) (Z.max 0 (maxRequests - count r)) in
  admitted_for k calls (serve maxRequests windowMs calls store).1 = n
  ∧ (serve maxRequests windowMs calls store).2 !! k
    = Some {| count := count r + n; resetTime := resetTime r |}.
Proof.
  revert store r.
  induction calls as [|[req now] rest IH]; intros store r Hk Hin; cbn zeta.
  - unfold admitted_for, requests_of. simpl. split; [lia |].
    rewrite Hk. f_equal. destruct r. simpl. f_equal. lia.
  - apply Forall_cons in Hin as [Hnow Hrest]. simpl in Hnow.
    pose proof (requests_of_nonneg k rest) as Hn.
    rewrite serve_cons. cbn [fst snd].
    rewrite admitted_for_cons, requests_of_cons. cbn [fst snd].
    destruct (decide (identifier req = k)) as [Heq|Hne].
    + rewrite bool_decide_eq_true_2 by done. subst k.
      specialize (Hnow eq_refl).
      destruct (decide (count r < maxRequests)) as [Hlt|Hge].
      * rewrite (rateLimit_admitted _ _ _ _ _ r) by done. simpl.
        destruct (IH (<[identifier req := bumped r]> store) (bumped r))
          as [Hadm Hrec]; [apply lookup_insert_eq | done |].
        simpl in Hadm, Hrec. rewrite Hadm, Hrec. split; [lia |].
        f_equal. f_equal. lia.
      * rewrite (rateLimit_denied _ _ _ _ _ r) by (done || lia). simpl.
        destruct (IH store r) as [Hadm Hrec]; [done.. |].
        simpl in Hadm, Hrec. rewrite Hadm, Hrec. split; [lia |].
        f_equal. f_equal. lia.
    + rewrite bool_decide_eq_false_2 by done. simpl.
      destruct (IH (rateLimit maxRequests windowMs req now store).2 r)
        as [Hadm Hrec]; [| done |].
      { rewrite rateLimit_other_key by done. done. }
      simpl in Hadm, Hrec. rewrite Hadm, Hrec. split; [lia | done].
Qed.

(** X2: the quota of a window.  From the first request of a key, and as long
    as its requests arrive within [windowMs] of it, the limiter lets through
    exactly the first [maxRequests] of them (the first one always, also
    when the maximum is below 1), whatever other keys are served in between;
    the window still ends [windowMs] after the first request. *)
Theorem rateLimit_window_quota maxRequests windowMs req t0 calls store :
  store !! identifier req = None →
  Forall (λ c : request * Z,
            identifier c.1 = identifier req → c.2 ≤ t0 + windowMs) calls →
  let k := identifier req in
  let n := Z.min (1 + requests_of k calls) (Z.max 1 maxRequests) in
  admitted_for k ((req, t0) :: calls)
    (serve maxRequests windowMs ((req, t0) :: calls) store).1 = n
  ∧ (serve maxRequests windowMs ((req, t0) :: calls) store).2 !! k
    = Some {| count := n; resetTime := t0 + windowMs |}.
Proof.
  intros Hk Hin. cbn zeta.
  pose proof (requests_of_nonneg (identifier req) calls) as Hn.
  rewrite serve_cons. cbn [fst snd]. rewrite admitted_for_cons. cbn [fst snd].
  rewrite bool_decide_eq_true_2 by done.
  rewrite rateLimit_absent by done. cbn [fst snd is_next andb].
  destruct (serve_in_window maxRequests windowMs (identifier req) calls
              (<[identifier req := fresh t0 windowMs]> store)
              (fresh t0 windowMs)) as [Hadm Hrec];
    [apply lookup_insert_eq | done |].
  simpl in Hadm, Hrec. rewrite Hadm, Hrec. split; [lia |].
  f_equal. f_equal. lia.
Qed.

Lemma rateLimit_window_quota_witness :
  admitted_for (identifier a_client)
    [(a_client, 0); (a_client, 10); (a_client, 20); (a_client, 30);
     (a_client, 40)]
    (serve 3 1000
       [(a_client, 0); (a_client, 10); (a_client, 20); (a_client, 30);
        (a_client, 40)] ∅).1
  = 3
  ∧ (serve 3 1000
       [(a_client, 0); (a_client, 10); (a_client, 20); (a_client, 30);
        (a_client, 40)] ∅).2 !! identifier a_client
    = Some {| count := 3; resetTime := 1000 |}.
Proof.
  apply (rateLimit_window_quota 3 1000 a_client 0
           [(a_client, 10); (a_client, 20); (a_client, 30); (a_client, 40)] ∅).
  - reflexivity.
  - repeat constructor; simpl; lia.
Defined.

(** X3: the periodic sweep drops exactly the records whose window has
    expired, and a sweep that ran at or before the time of a request changes
    neither the answer to the request nor the record it leaves for the key. *)
Theorem sweep_then_rateLimit maxRequests windowMs req swept now store :
  swept ≤ now →
  (∀ k r, sweep swept store !! k = Some r
          ↔ store !! k = Some r ∧ swept ≤ resetTime r)
  ∧ (rateLimit maxRequests windowMs req now (sweep swept store)).1
    = (rateLimit maxRequests windowMs req now store).1
  ∧ (rateLimit maxRequests windowMs req now (sweep swept store)).2
      !! identifier req
    = (rateLimit maxRequests windowMs req now store).2 !! identifier req.
Proof.
  intros Hle. split; [intros k r; apply sweep_lookup |].
  destruct (rateLimit_cases maxRequests windowMs req now store)
    as [[Hk ->] | [(r & Hk & Hlate & ->) | [(r & Hk & Hin & Hlt & ->)
                                           | (r & Hk & Hin & Hge & ->)]]];
    simpl.
  - rewrite rateLimit_absent; [simpl; by rewrite !lookup_insert_eq |].
    destruct (sweep swept store !! identifier req) as [r|] eqn:Hs; [| done].
    apply sweep_lookup in Hs as [Hs _]. congruence.
  - destruct (sweep swept store !! identifier req) as [r'|] eqn:Hs.
    + apply sweep_lookup in Hs as Hs'. destruct Hs' as [Hs' _].
      assert (r' = r) as -> by congruence.
      rewrite (rateLimit_expired _ _ _ _ _ r) by done.
      simpl. by rewrite !lookup_insert_eq.
    + rewrite rateLimit_absent by done. simpl. by rewrite !lookup_insert_eq.
  - assert (sweep swept store !! identifier req = Some r) as Hs
      by (apply sweep_lookup; split; [done | lia]).
    rewrite (rateLimit_admitted _ _ _ _ _ r) by done.
    simpl. by rewrite !lookup_insert_eq.
  - assert (sweep swept store !! identifier req = Some r) as Hs
      by (apply sweep_lookup; split; [done | lia]).
    rewrite (rateLimit_denied _ _ _ _ _ r) by done.
    simpl. by rewrite Hk, Hs.
Qed.

Lemma sweep_then_rateLimit_witness :
  (rateLimit 3 1000 a_client 1500
     (sweep 1200 {[ identifier a_client := {| count := 3; resetTime := 1000 |} ]})).1
  = (rateLimit 3 1000 a_client 1500
       {[ identifier a_client := {| count := 3; resetTime := 1000 |} ]}).1.
Proof.
  apply (proj1 (proj2 (sweep_then_rateLimit 3 1000 a_client 1200 1500
           {[ identifier a_client := {| count := 3; resetTime := 1000 |} ]}
           ltac:(lia)))).
Defined.

End RateLimitMore.

(** ** The guards *)

Section GuardFacts.

Ltac run :=
  unfold respond, admin_route, adminOnly, me, me_handler, registerAdmin,
    register, login, refresh, logout, logout_handler, protect,
    User_findOne, User_findOne_or, User_findById, User_findByIdAndUpdate_pull,
    User_create, save_refreshTokens, matchPassword, incrementLoginAttempts,
    resetLoginAttempts, try_catch, when, return_, throw, lift, log, get_users,
    put_users, mbind, M_bind, mret, M_ret;
  cbn beta iota zeta.

#[local] Arguments Jwt.verify : simpl never.
#[local] Arguments Jwt.truthy : simpl never.

Lemma verify_wrong_key payload key secret now :
  JS.truthy (Some secret) = true →
  key ≠ secret →
  Jwt.verify (Some (Jwt.Signed payload key)) (Some secret) now
  = Throw (JsonWebTokenError "invalid signature").
Proof.
  intros Hsecret Hne. unfold Jwt.verify. rewrite Hsecret. simpl.
  by destruct (String.eqb_spec key secret).
Qed.

Lemma verify_expired payload key now :
  key ≠ "" →
  Jwt.exp payload ≤ Jwt.clockTimestamp now →
  Jwt.verify (Some (Jwt.Signed payload key)) (Some key) now
  = Throw (TokenExpiredError "jwt expired").
Proof.
  intros Hkey Hexp. unfold Jwt.verify. rewrite truthy_Some_ne by done. simpl.
  rewrite String.eqb_refl. simpl. rewrite Z.geb_leb.
  by destruct (Z.leb_spec (Jwt.exp payload) (Jwt.clockTimestamp now)); [| lia].
Qed.

Lemma protect_rejects env now t e w :
  Jwt.truthy (Some t) = true →
  Jwt.verify (Some t) (JWT_SECRET env) now = Throw e →
  protect env now (Bearer t) w
  = (Returned
       (if String.eqb (name e) "TokenExpiredError"
        then {| status := 401;
                body := MessageCode false "Token expired" "TOKEN_EXPIRED" |}
        else status_json 401 false "Not authorized, invalid token"), w).
Proof.
  intros Htruthy Hverify. run. rewrite Htruthy, Hverify. simpl.
  by destruct (String.eqb (name e) "TokenExpiredError").
Qed.

(** Every run of the access guard: it lets pass, logging one query, or it
    answers 401 and leaves the collection alone. *)
Lemma protect_cases env now auth w :
  (∃ t decoded user,
     auth = Bearer t
     ∧ Jwt.verify (Some t) (JWT_SECRET env) now = Ok decoded
     ∧ find (λ u, String.eqb (User._id u) (Jwt.id decoded)) (users w)
       = Some user
     ∧ User.isActive user = true
     ∧ protect env now auth w
       = (Normal {| ru_id := Jwt.id decoded; ru_role := Jwt.role decoded |},
          {| users := users w;
             calls := calls w ++ [FindById (Jwt.id decoded)] |}))
  ∨ (∃ response w',
       protect env now auth w = (Returned response, w')
       ∧ users w' = users w
       ∧ status response = 401
       ∧ success response = false).
Proof.
  destruct auth as [| header | t].
  - right. by do 2 eexists.
  - right. by do 2 eexists.
  - destruct (Jwt.truthy (Some t)) eqn:Htruthy.
    + destruct (Jwt.verify (Some t) (JWT_SECRET env) now) as [decoded|e]
        eqn:Hverify.
      * destruct (find (λ u, String.eqb (User._id u) (Jwt.id decoded)) (users w))
          as [user|] eqn:Hfind.
        -- destruct (User.isActive user) eqn:Hactive.
           ++ left. exists t, decoded, user.
              by rewrite (protect_passes env now t decoded user w).
           ++ right. run. rewrite Htruthy, Hverify. simpl.
              rewrite Hfind, Hactive. simpl. by do 2 eexists.
        -- right. run. rewrite Htruthy, Hverify. simpl. rewrite Hfind.
           simpl. by do 2 eexists.
      * right. rewrite (protect_rejects env now t e w) by done.
        do 2 eexists. split; [done |]. split; [done |].
        by destruct (String.eqb (name e) "TokenExpiredError").
    + right. run. rewrite Htruthy. simpl. by do 2 eexists.
Qed.

(** X4: the access guard lets a request pass exactly when it carries a
    [Bearer] token that verifies under the access secret and whose subject is
    a stored, active user: such a request passes, with the identity read from
    the token's claims, and only such a request does.  Every other request
    is answered with 401.  The guard never changes the collection. *)
Theorem protect_outcome env now auth w :
  users (protect env now auth w).2 = users w
  ∧ (∀ t decoded user,
       auth = Bearer t →
       Jwt.verify (Some t) (JWT_SECRET env) now = Ok decoded →
       find (λ u, String.eqb (User._id u) (Jwt.id decoded)) (users w)
       = Some user →
       User.isActive user = true →
       (protect env now auth w).1
       = Normal {| ru_id := Jwt.id decoded; ru_role := Jwt.role decoded |})
  ∧ (∀ caller,
       (protect env now auth w).1 = Normal caller →
       ∃ t decoded user,
         auth = Bearer t
         ∧ Jwt.verify (Some t) (JWT_SECRET env) now = Ok decoded
         ∧ find (λ u, String.eqb (User._id u) (Jwt.id decoded)) (users w)
           = Some user
         ∧ User.isActive user = true
         ∧ caller = {| ru_id := Jwt.id decoded; ru_role := Jwt.role decoded |})
  ∧ ((∃ caller, (protect env now auth w).1 = Normal caller)
     ∨ (∃ response,
          (protect env now auth w).1 = Returned response
          ∧ status response = 401
          ∧ success response = false)).
Proof.
  split; [| split; [| split]].
  - destruct (protect_cases env now auth w)
      as [(t & decoded & user & _ & _ & _ & _ & Hrun)
         | (r & w' & Hrun & Husers & _)]; by rewrite Hrun.
  - intros t decoded user -> Hverify Hfind Hactive.
    by rewrite (protect_passes env now t decoded user w).
  - apply protect_passes_inv.
  - destruct (protect_cases env now auth w)
      as [(t & decoded & user & _ & _ & _ & _ & Hrun)
         | (r & w' & Hrun & _ & Hstatus & Hfail)]; rewrite Hrun; simpl.
    + left. by eexists.
    + right. by exists r.
Qed.

(** X5: a token signed with the access secret whose expiry has passed is
    answered with the code [TOKEN_EXPIRED]; a token signed with another key
    is answered as invalid, without the code, expired or not.  Neither
    reaches the user model. *)
Theorem protect_expired_or_forged env now payload key secret w :
  JWT_SECRET env = Some secret → secret ≠ "" →
  (key = secret → Jwt.exp payload ≤ Jwt.clockTimestamp now →
   protect env now (Bearer (Jwt.Signed payload key)) w
   = (Returned {| status := 401;
                  body := MessageCode false "Token expired" "TOKEN_EXPIRED" |},
      w))
  ∧ (key ≠ secret →
     protect env now (Bearer (Jwt.Signed payload key)) w
     = (Returned (status_json 401 false "Not authorized, invalid token"), w)).
Proof.
  intros Hsecret Hne. split.
  - intros -> Hexp.
    rewrite (protect_rejects env now _ (TokenExpiredError "jwt expired") w);
      [done | done |].
    rewrite Hsecret. by apply verify_expired.
  - intros Hkey.
    rewrite (protect_rejects env now _ (JsonWebTokenError "invalid signature") w);
      [done | done |].
    rewrite Hsecret. apply verify_wrong_key; [by apply truthy_Some_ne | done].
Qed.

(** X6: behind [protect, adminOnly] a handler runs exactly when the token's
    role claim is [admin], whatever role the stored document has; any other
    role claim is answered with 403 and a refusal of the access guard is
    passed on, in both cases without running the handler. *)
Theorem admin_route_guard env now auth (handler : ReqUser → M Empty_set) w :
  match (protect env now auth w).1 with
  | Normal caller =>
      if bool_decide (ru_role caller = Some "admin")
      then admin_route env now auth handler w
           = handler caller (protect env now auth w).2
      else respond (admin_route env now auth handler) w
           = (Some (status_json 403 false
                      "Access denied: admin privileges required"),
              (protect env now auth w).2)
  | Returned response =>
      respond (admin_route env now auth handler) w
      = (Some response, (protect env now auth w).2)
  | Thrown e => False
  end.
Proof.
  destruct (protect_cases env now auth w)
    as [(t & decoded & user & _ & _ & _ & _ & Hrun)
       | (r & w' & Hrun & _)];
    unfold respond, admin_route, mbind, M_bind; rewrite Hrun; simpl.
  - unfold adminOnly. simpl. case_bool_decide as Hrole.
    + rewrite Hrole. simpl. unfold mret, M_ret.
      by destruct (handler _ _) as [[| |] ?].
    + destruct (JS.strict_eq (Jwt.role decoded) (Some "admin")) eqn:Heq;
        [by apply strict_eq_spec in Heq | done].
  - done.
Qed.

End GuardFacts.

(** ** Registration *)

Section RegistrationFacts.

Context {deps : Collaborators}.

Ltac run :=
  unfold respond, admin_route, adminOnly, me, me_handler, registerAdmin,
    register, login, refresh, logout, logout_handler, protect,
    User_findOne, User_findOne_or, User_findById, User_findByIdAndUpdate_pull,
    User_create, save_refreshTokens, matchPassword, incrementLoginAttempts,
    resetLoginAttempts, try_catch, when, return_, throw, lift, log, get_users,
    put_users, mbind, M_bind, mret, M_ret;
  cbn beta iota zeta.

(** The document that a registration stores. *)
Lemma find_None_all {A} (P : A → bool) (l : list A) :
  find P l = None ↔ ∀ x, x ∈ l → P x = false.
Proof.
  induction l as [|a l IH]; simpl.
  - split; [by intros _ x ?%elem_of_nil | done].
  - destruct (P a) eqn:Ha.
    + split; [done |]. intros Hall.
      specialize (Hall a (list_elem_of_here _ _)). congruence.
    + rewrite IH. split.
      * intros Hall x [-> | Hx]%elem_of_cons; [done | by apply Hall].
      * intros Hall x Hx. apply Hall. by apply list_elem_of_further.
Qed.

Lemma long_enough (s : string) (n : Z) :
  n ≤ Z.of_nat (String.length s) → (Z.of_nat (String.length s) <? n) = false.
Proof. intros Hn. by destruct (Z.ltb_spec (Z.of_nat (String.length s)) n); [lia |]. Qed.

(** X7: a self-registration with a name, an email and a password of 8
    characters or more, none of them in use, is answered with 201 and stores
    one new document whose role is [user], whatever role other than [admin]
    the body asked for; the password is stored hashed and the account starts
    active, unlocked and without refresh token. *)
Theorem register_creates_user body w username email password :
  reg_role body ≠ Some "admin" →
  reg_username body = Some username → username ≠ "" →
  reg_email body = Some email → email ≠ "" →
  reg_password body = Some password →
  8 ≤ Z.of_nat (String.length password) →
  (∀ u, u ∈ users w → User.email u ≠ email ∧ User.username u ≠ username) →
  respond (register body) w
  = (Some (status_json 201 true "User registered successfully"),
     {| users := users w
                 ++ [{| User._id := ObjectId (users w);
                        User.username := username; User.email := email;
                        User.password := bcrypt_hash password;
                        User.role := "user"; User.isActive := true;
                        User.loginAttempts := 0; User.lockUntil := None;
                        User.refreshTokens := [] |}];
        calls := calls w ++ [FindOneOr email username;
                            Save (ObjectId (users w))] |}).
Proof.
  intros Hrole Huser Hune Hemail Hene Hpw Hlen Hfree.
  assert (password ≠ "") as Hpne by (intros ->; simpl in Hlen; lia).
  assert (find (λ u, String.eqb (User.email u) email
                     || String.eqb (User.username u) username) (users w)
          = None) as Hfind.
  { apply find_None_all. intros u Hu. destruct (Hfree u Hu) as [He Hn].
    apply orb_false_iff. split; by apply String.eqb_neq. }
  run. rewrite Huser, Hemail, Hpw.
  destruct (JS.strict_eq (reg_role body) (Some "admin")) eqn:Hadmin;
    [by apply strict_eq_spec in Hadmin |].
  rewrite !truthy_Some_ne by done. simpl.
  rewrite long_enough by done. simpl. rewrite Hfind. simpl.
  by rewrite <- app_assoc.
Qed.

(** Every run of a self-registration stores nothing or one more document. *)
Lemma register_cases body w :
  users (respond (register body) w).2 = users w
  ∨ ∃ u,
      users (respond (register body) w).2 = (users w ++ [u])%list
      ∧ User.role u = "user"
      ∧ ∀ v, v ∈ users w →
             User.email v ≠ User.email u ∧ User.username v ≠ User.username u.
Proof.
  run.
  destruct (JS.strict_eq (reg_role body) (Some "admin")); simpl; [by left |].
  destruct (negb (JS.truthy (reg_username body)) || negb (JS.truthy (reg_email body))
            || negb (JS.truthy (reg_password body))); simpl; [by left |].
  destruct (Z.of_nat (String.length (default "" (reg_password body))) <? 8);
    simpl; [by left |].
  destruct (find _ (users w)) as [existing|] eqn:Hfind; simpl; [by left |].
  right. eexists. split; [done |]. split; [done |]. simpl.
  intros v Hv. pose proof (proj1 (find_None_all _ _) Hfind v Hv) as Hfree.
  apply orb_false_iff in Hfree as [He Hn].
  split; by apply String.eqb_neq.
Qed.

(** X8: whatever the body, a self-registration leaves the stored documents
    as they were, in place, adds at most one after them, and adds no
    document with role [admin]. *)
Theorem register_adds_no_admin body w :
  users w `prefix_of` users (respond (register body) w).2
  ∧ (length (users (respond (register body) w).2) ≤ length (users w) + 1)%nat
  ∧ filter (λ u, User.role u = "admin") (users (respond (register body) w).2)
    = filter (λ u, User.role u = "admin") (users w).
Proof.
  destruct (register_cases body w) as [-> | (u & -> & Hrole & _)].
  - split; [done |]. split; [lia | done].
  - split; [by apply prefix_app_r |]. split; [rewrite length_app; simpl; lia |].
    rewrite filter_app, filter_cons, decide_False by (by rewrite Hrole).
    by rewrite filter_nil, app_nil_r.
Qed.

(** X9: registration keeps emails and user names unique: if no two stored
    documents share an email, or a name, none do after a self-registration. *)
Theorem register_keeps_unique body w :
  NoDup (User.email <$> users w) →
  NoDup (User.username <$> users w) →
  NoDup (User.email <$> users (respond (register body) w).2)
  ∧ NoDup (User.username <$> users (respond (register body) w).2).
Proof.
  intros Hemails Hnames.
  destruct (register_cases body w) as [-> | (u & -> & Hrole & Hfree)];
    [done |].
  rewrite !fmap_app. simpl. split.
  - apply NoDup_app. split; [done |]. split; [| apply NoDup_singleton].
    intros e (v & -> & Hv)%list_elem_of_fmap Heq%list_elem_of_singleton.
    by destruct (Hfree v Hv).
  - apply NoDup_app. split; [done |]. split; [| apply NoDup_singleton].
    intros e (v & -> & Hv)%list_elem_of_fmap Heq%list_elem_of_singleton.
    by destruct (Hfree v Hv).
Qed.

(** X10: a self-registration whose email or user name a stored document
    already has is answered with 400 and stores nothing; so the same
    registration sent twice succeeds once. *)
Theorem register_duplicate_refused body w username email password existing :
  reg_role body ≠ Some "admin" →
  reg_username body = Some username → username ≠ "" →
  reg_email body = Some email → email ≠ "" →
  reg_password body = Some password →
  8 ≤ Z.of_nat (String.length password) →
  existing ∈ users w →
  User.email existing = email ∨ User.username existing = username →
  respond (register body) w
  = (Some (status_json 400 false "Username or email already in use"),
     {| users := users w; calls := calls w ++ [FindOneOr email username] |}).
Proof.
  intros Hrole Huser Hune Hemail Hene Hpw Hlen Hin Hsame.
  assert (password ≠ "") as Hpne by (intros ->; simpl in Hlen; lia).
  destruct (find (λ u, String.eqb (User.email u) email
                       || String.eqb (User.username u) username) (users w))
    as [found|] eqn:Hfind.
  - run. rewrite Huser, Hemail, Hpw.
    destruct (JS.strict_eq (reg_role body) (Some "admin")) eqn:Hadmin;
      [by apply strict_eq_spec in Hadmin |].
    rewrite !truthy_Some_ne by done. simpl.
    rewrite long_enough by done. simpl. by rewrite Hfind.
  - pose proof (proj1 (find_None_all _ _) Hfind existing Hin) as Hfree.
    apply orb_false_iff in Hfree as [He Hn].
    apply String.eqb_neq in He, Hn. by destruct Hsame.
Qed.

End RegistrationFacts.

(** ** Admin registration *)

Section AdminRegistrationFacts.

Context {deps : Collaborators}.

Ltac run :=
  unfold respond, admin_route, adminOnly, me, me_handler, registerAdmin,
    register, login, refresh, logout, logout_handler, protect,
    User_findOne, User_findOne_or, User_findById, User_findByIdAndUpdate_pull,
    User_create, save_refreshTokens, matchPassword, incrementLoginAttempts,
    resetLoginAttempts, try_catch, when, return_, throw, lift, log, get_users,
    put_users, mbind, M_bind, mret, M_ret;
  cbn beta iota zeta.

Lemma allowed_not_line_terminator c :
  Regex.allowed c = true → Regex.line_terminator c = false.
Proof.
  destruct c as [[] [] [] [] [] [] [] []]; vm_compute; congruence.
Qed.

Lemma lookahead_existsb cls s :
  forallb Regex.allowed (String.list_ascii_of_string s) = true →
  Regex.lookahead cls s = existsb cls (String.list_ascii_of_string s).
Proof.
  induction s as [|c s IH]; simpl; [done |].
  intros [Hc Hs]%andb_true_iff.
  rewrite (allowed_not_line_terminator c Hc). simpl. by rewrite IH.
Qed.

Lemma existsb_elem_of {A} (P : A → bool) (l : list A) :
  existsb P l = true ↔ ∃ x, x ∈ l ∧ P x = true.
Proof.
  rewrite existsb_exists. by setoid_rewrite list_elem_of_In.
Qed.

Lemma forallb_elem_of {A} (P : A → bool) (l : list A) :
  forallb P l = true ↔ ∀ x, x ∈ l → P x = true.
Proof.
  rewrite forallb_forall. by setoid_rewrite list_elem_of_In.
Qed.

(** X11: the regular expression for admin passwords accepts exactly the
    strings of 12 characters or more, all of them letters, digits or one of
    [@$!%*?&], that hold a lower-case letter, an upper-case letter, a digit
    and one of the symbols. *)
Theorem strongPasswordRegex_accepts s :
  Regex.strongPasswordRegex_test s = true
  ↔ (12 ≤ String.length s)%nat
    ∧ (∀ c, c ∈ String.list_ascii_of_string s → Regex.allowed c = true)
    ∧ (∃ c, c ∈ String.list_ascii_of_string s ∧ Regex.lower c = true)
    ∧ (∃ c, c ∈ String.list_ascii_of_string s ∧ Regex.upper c = true)
    ∧ (∃ c, c ∈ String.list_ascii_of_string s ∧ Regex.digit c = true)
    ∧ (∃ c, c ∈ String.list_ascii_of_string s ∧ Regex.special c = true).
Proof.
  unfold Regex.strongPasswordRegex_test, Regex.all_of.
  rewrite <- forallb_elem_of, <- !existsb_elem_of.
  destruct (forallb Regex.allowed (String.list_ascii_of_string s)) eqn:Hall.
  - rewrite !lookahead_existsb by done.
    rewrite !andb_true_iff, Nat.leb_le. intuition.
  - rewrite !andb_true_iff. intuition congruence.
Qed.

(** X12: an admin registration without the admin token, with a token other
    than the configured secret, or on a server whose secret is not
    configured, is answered with 403 whatever the other fields hold; the user
    model is not called and nothing is stored. *)
Theorem registerAdmin_denied env body w :
  JS.truthy (ra_adminToken body) = false
  ∨ ra_adminToken body ≠ ADMIN_SECRET_TOKEN env
  ∨ JS.truthy (ADMIN_SECRET_TOKEN env) = false →
  registerAdmin env body w
  = (Returned (status_json 403 false
                 "Invalid admin token. Admin registration denied."), w).
Proof.
  intros Hbad. run.
  destruct (JS.truthy (ra_adminToken body)) eqn:Htruthy; simpl; [| done].
  destruct (JS.strict_eq (ra_adminToken body) (ADMIN_SECRET_TOKEN env)) eqn:Heq;
    simpl; [| done].
  apply strict_eq_spec in Heq.
  destruct Hbad as [? | [? | Hunset]]; [done | done |].
  congruence.
Qed.

(** X13: an admin document is created only by a request that carries the
    configured admin secret, with name, email and a password that the
    regular expression accepts, none of name and email in use; the document
    is added at the end of the collection with role [admin], and the answer
    names its id, user name and email. *)
Theorem registerAdmin_created env body w created :
  (registerAdmin env body w).1 = Normal created →
  ∃ username email password,
    ra_adminToken body = ADMIN_SECRET_TOKEN env
    ∧ JS.truthy (ADMIN_SECRET_TOKEN env) = true
    ∧ ra_username body = Some username
    ∧ ra_email body = Some email
    ∧ ra_password body = Some password
    ∧ Regex.strongPasswordRegex_test password = true
    ∧ (∀ u, u ∈ users w →
            User.email u ≠ email ∧ User.username u ≠ username)
    ∧ users (registerAdmin env body w).2
      = (users w
         ++ [{| User._id := ObjectId (users w);
                User.username := username; User.email := email;
                User.password := bcrypt_hash password;
                User.role := "admin"; User.isActive := true;
                User.loginAttempts := 0; User.lockUntil := None;
                User.refreshTokens := [] |}])%list
    ∧ created = {| ac_id := ObjectId (users w); ac_username := username;
                   ac_email := email |}.
Proof.
  run.
  destruct (JS.truthy (ra_adminToken body)) eqn:Htoken; simpl; [| done].
  destruct (JS.strict_eq (ra_adminToken body) (ADMIN_SECRET_TOKEN env)) eqn:Heq;
    simpl; [| done].
  apply strict_eq_spec in Heq.
  destruct (JS.truthy (ra_username body)) eqn:Huser; simpl; [| done].
  destruct (JS.truthy (ra_email body)) eqn:Hemail; simpl; [| done].
  destruct (JS.truthy (ra_password body)) eqn:Hpw; simpl; [| done].
  apply truthy_Some in Huser as (username & Huser & _).
  apply truthy_Some in Hemail as (email & Hemail & _).
  apply truthy_Some in Hpw as (password & Hpw & _).
  rewrite Huser, Hemail, Hpw. simpl.
  destruct (Z.of_nat (String.length password) <? 12); simpl; [done |].
  destruct (Regex.strongPasswordRegex_test password) eqn:Hstrong; simpl;
    [| done].
  destruct (find _ (users w)) as [existing|] eqn:Hfind; simpl; [done |].
  intros [= <-]. exists username, email, password.
  repeat split; try done.
  - by rewrite <- Heq.
  - pose proof (proj1 (find_None_all _ _) Hfind u H) as Hfree.
    apply orb_false_iff in Hfree as [He _]. by apply String.eqb_neq.
  - pose proof (proj1 (find_None_all _ _) Hfind u H) as Hfree.
    apply orb_false_iff in Hfree as [_ Hn]. by apply String.eqb_neq.
Qed.

End AdminRegistrationFacts.

(** ** Login, and what its tokens are good for *)

Section LoginFacts.

Context {deps : Collaborators}.

Ltac run :=
  unfold respond, admin_route, adminOnly, me, me_handler, registerAdmin,
    register, login, refresh, logout, logout_handler, protect,
    User_findOne, User_findOne_or, User_findById, User_findByIdAndUpdate_pull,
    User_create, save_refreshTokens, matchPassword, incrementLoginAttempts,
    resetLoginAttempts, try_catch, when, return_, throw, lift, log, get_users,
    put_users, mbind, M_bind, mret, M_ret;
  cbn beta iota zeta.

#[local] Arguments Jwt.verify : simpl never.
#[local] Arguments Jwt.truthy : simpl never.
#[local] Arguments generateAccessToken : simpl never.
#[local] Arguments generateRefreshToken : simpl never.

Lemma admin_step_up_passes env body user :
  (User.role user = "admin" →
   JS.truthy (login_adminToken body) = true
   ∧ login_adminToken body = ADMIN_SECRET_TOKEN env) →
  String.eqb (User.role user) "admin"
  && (negb (JS.truthy (login_adminToken body))
      || negb (JS.strict_eq (login_adminToken body) (ADMIN_SECRET_TOKEN env)))
  = false.
Proof.
  intros Hadmin. destruct (String.eqb_spec (User.role user) "admin") as [Hrole|];
    [| done].
  destruct (Hadmin Hrole) as [-> Heq].
  by rewrite (proj2 (strict_eq_spec _ _) Heq).
Qed.

Lemma generateRefreshToken_configured env now userId :
  JS.truthy (JWT_REFRESH_SECRET env) = true →
  ∃ key,
    JWT_REFRESH_SECRET env = Some key
    ∧ generateRefreshToken env now userId
      = Ok (Jwt.Signed {| Jwt.id := userId; Jwt.role := None;
                          Jwt.iat := Jwt.clockTimestamp now;
                          Jwt.exp := Jwt.clockTimestamp now + seven_days |} key).
Proof.
  intros (key & Hkey & Hne)%truthy_Some. exists key. split; [done |].
  unfold generateRefreshToken, Jwt.sign. rewrite Hkey.
  by rewrite (proj2 (truthy_string_spec key) Hne).
Qed.

Lemma generate_unconfigured env now userId role :
  (JS.truthy (JWT_SECRET env) = false →
   ∃ e, generateAccessToken env now userId role = Throw e)
  ∧ (JS.truthy (JWT_REFRESH_SECRET env) = false →
     ∃ e, generateRefreshToken env now userId = Throw e).
Proof.
  unfold generateAccessToken, generateRefreshToken, Jwt.sign.
  split; intros Hunset.
  - destruct (JWT_SECRET env) as [key|]; [| by eexists].
    simpl in Hunset. rewrite Hunset. by eexists.
  - destruct (JWT_REFRESH_SECRET env) as [key|]; [| by eexists].
    simpl in Hunset. rewrite Hunset. by eexists.
Qed.

(** The handler up to the password check, for a request that gets there. *)
Lemma login_reaches_password env now body w email password user :
  login_email body = Some email → email ≠ "" →
  login_password body = Some password → password ≠ "" →
  find (λ u, String.eqb (User.email u) email) (users w) = Some user →
  (User.role user = "admin" →
   JS.truthy (login_adminToken body) = true
   ∧ login_adminToken body = ADMIN_SECRET_TOKEN env) →
  User.isLocked user now = false →
  respond (login env now body) w
  = respond
      (try_catch
         (isMatch ← matchPassword user password;
          when (negb isMatch)
            (incrementLoginAttempts now user;;
             return_ (status_json 401 false "Invalid credentials"));;
          resetLoginAttempts user;;
          accessToken ← lift (generateAccessToken env now (User._id user)
                                (User.role user));
          refreshToken ← lift (generateRefreshToken env now (User._id user));
          let user :=
            User.set_refreshTokens
              (User.refreshTokens user
               ++ [{| User.token := refreshToken; User.createdAt := now |}])
              user in
          save_refreshTokens user;;
          return_ (json (LoginBody accessToken refreshToken
                           {| pu_id := User._id user;
                              pu_username := User.username user;
                              pu_email := User.email user;
                              pu_role := User.role user |})))
         (λ error,
            return_ (status_json 500 false "Server error while logging in")))
      {| users := users w; calls := calls w ++ [FindOne email] |}.
Proof.
  intros Hemail Hne Hpw Hpne Hfind Hadmin Hunlocked.
  pose proof (admin_step_up_passes env body user Hadmin) as Hstep.
  run. rewrite Hemail, Hpw, !truthy_Some_ne by done. simpl.
  rewrite Hfind.
  destruct (String.eqb (User.role user) "admin"); simpl in Hstep |- *.
  - rewrite Hstep. simpl. by rewrite Hunlocked.
  - by rewrite Hunlocked.
Qed.

(** X14: an unknown email and a wrong password are answered alike, with 401
    and the message [Invalid credentials]; only the wrong password reaches
    the account, where it is compared and counted as a failed attempt. *)
Theorem login_invalid_credentials env now body w email password :
  login_email body = Some email → email ≠ "" →
  login_password body = Some password → password ≠ "" →
  (find (λ u, String.eqb (User.email u) email) (users w) = None
   → respond (login env now body) w
     = (Some (status_json 401 false "Invalid credentials"),
        {| users := users w; calls := calls w ++ [FindOne email] |}))
  ∧ (∀ user,
       find (λ u, String.eqb (User.email u) email) (users w) = Some user →
       (User.role user = "admin" →
        JS.truthy (login_adminToken body) = true
        ∧ login_adminToken body = ADMIN_SECRET_TOKEN env) →
       User.isLocked user now = false →
       bcrypt_compare password (User.password user) = false →
       (respond (login env now body) w).1
       = Some (status_json 401 false "Invalid credentials")
       ∧ calls (respond (login env now body) w).2
         = (calls w
            ++ [FindOne email; MatchPassword (User._id user) password;
                IncrementLoginAttempts (User._id user)])%list).
Proof.
  intros Hemail Hne Hpw Hpne. split.
  - intros Hfind. run. rewrite Hemail, Hpw, !truthy_Some_ne by done. simpl.
    by rewrite Hfind.
  - intros user Hfind Hadmin Hunlocked Hwrong.
    rewrite (login_reaches_password env now body w email password user) by done.
    run. rewrite Hwrong. simpl. split; [done |].
    by rewrite <- !app_assoc.
Qed.

(** The run of a login that succeeds. *)
Lemma login_success_run env now body w email password user akey rkey :
  login_email body = Some email → email ≠ "" →
  login_password body = Some password → password ≠ "" →
  find (λ u, String.eqb (User.email u) email) (users w) = Some user →
  (User.role user = "admin" →
   JS.truthy (login_adminToken body) = true
   ∧ login_adminToken body = ADMIN_SECRET_TOKEN env) →
  User.isLocked user now = false →
  bcrypt_compare password (User.password user) = true →
  JWT_SECRET env = Some akey → akey ≠ "" →
  JWT_REFRESH_SECRET env = Some rkey → rkey ≠ "" →
  let accessToken :=
    Jwt.Signed {| Jwt.id := User._id user; Jwt.role := Some (User.role user);
                  Jwt.iat := Jwt.clockTimestamp now;
                  Jwt.exp := Jwt.clockTimestamp now + one_day |} akey in
  let refreshToken :=
    Jwt.Signed {| Jwt.id := User._id user; Jwt.role := None;
                  Jwt.iat := Jwt.clockTimestamp now;
                  Jwt.exp := Jwt.clockTimestamp now + seven_days |} rkey in
  respond (login env now body) w
  = (Some (json (LoginBody accessToken refreshToken
                   {| pu_id := User._id user;
                      pu_username := User.username user;
                      pu_email := User.email user;
                      pu_role := User.role user |})),
     {| users :=
          updateOne (User._id user)
            (User.set_refreshTokens
               (User.refreshTokens user
                ++ [{| User.token := refreshToken; User.createdAt := now |}]))
            (updateOne (User._id user) (User.set_lockout 0 None) (users w));
        calls :=
          calls w
          ++ [FindOne email; MatchPassword (User._id user) password;
              ResetLoginAttempts (User._id user); Save (User._id user)] |}).
Proof.
  intros Hemail Hne Hpw Hpne Hfind Hadmin Hunlocked Hright Ha Hane Hr Hrne.
  cbn zeta.
  rewrite (login_reaches_password env now body w email password user) by done.
  destruct (generateAccessToken_configured env now (User._id user)
              (User.role user)) as (akey' & Ha' & Haccess);
    [by rewrite Ha; apply truthy_Some_ne |].
  destruct (generateRefreshToken_configured env now (User._id user))
    as (rkey' & Hr' & Hrefresh); [by rewrite Hr; apply truthy_Some_ne |].
  assert (akey' = akey) as -> by congruence.
  assert (rkey' = rkey) as -> by congruence.
  run. rewrite Hright, Haccess, Hrefresh. simpl.
  by rewrite <- !app_assoc.
Qed.

(** X15: a login with the right password to an unlocked account (and the
    admin secret, for an admin) on a server with both signing secrets answers
    200 with an access token for the account's id and role and a refresh
    token for its id; the stored account then has no failed attempt, no lock,
    and the refresh token at the end of its list, and no other account is
    changed. *)
Theorem login_success env now body w email password user akey rkey :
  login_email body = Some email → email ≠ "" →
  login_password body = Some password → password ≠ "" →
  find (λ u, String.eqb (User.email u) email) (users w) = Some user →
  find (λ u, String.eqb (User._id u) (User._id user)) (users w) = Some user →
  (User.role user = "admin" →
   JS.truthy (login_adminToken body) = true
   ∧ login_adminToken body = ADMIN_SECRET_TOKEN env) →
  User.isLocked user now = false →
  bcrypt_compare password (User.password user) = true →
  JWT_SECRET env = Some akey → akey ≠ "" →
  JWT_REFRESH_SECRET env = Some rkey → rkey ≠ "" →
  let accessToken :=
    Jwt.Signed {| Jwt.id := User._id user; Jwt.role := Some (User.role user);
                  Jwt.iat := Jwt.clockTimestamp now;
                  Jwt.exp := Jwt.clockTimestamp now + one_day |} akey in
  let refreshToken :=
    Jwt.Signed {| Jwt.id := User._id user; Jwt.role := None;
                  Jwt.iat := Jwt.clockTimestamp now;
                  Jwt.exp := Jwt.clockTimestamp now + seven_days |} rkey in
  (respond (login env now body) w).1
  = Some (json (LoginBody accessToken refreshToken
                  {| pu_id := User._id user;
                     pu_username := User.username user;
                     pu_email := User.email user;
                     pu_role := User.role user |}))
  ∧ calls (respond (login env now body) w).2
    = (calls w
       ++ [FindOne email; MatchPassword (User._id user) password;
           ResetLoginAttempts (User._id user); Save (User._id user)])%list
  ∧ find (λ u, String.eqb (User._id u) (User._id user))
      (users (respond (login env now body) w).2)
    = Some (User.set_refreshTokens
              (User.refreshTokens user
               ++ [{| User.token := refreshToken; User.createdAt := now |}])
              (User.set_lockout 0 None user))
  ∧ ∀ id, id ≠ User._id user →
          find (λ u, String.eqb (User._id u) id)
            (users (respond (login env now body) w).2)
          = find (λ u, String.eqb (User._id u) id) (users w).
Proof.
  intros Hemail Hne Hpw Hpne Hfind Hid Hadmin Hunlocked Hright Ha Hane Hr Hrne.
  cbn zeta.
  rewrite (login_success_run env now body w email password user akey rkey)
    by done.
  simpl. split; [done |]. split; [done |]. split.
  - rewrite !find_updateOne_same by done. by rewrite Hid.
  - intros id Hother. by rewrite !find_updateOne_other by done.
Qed.

(** X16: on a server without a signing secret, a login with the right
    password is answered with 500; by then the failed-login counter has been
    reset, and no refresh token is stored. *)
Theorem login_without_signing_secret env now body w email password user :
  login_email body = Some email → email ≠ "" →
  login_password body = Some password → password ≠ "" →
  find (λ u, String.eqb (User.email u) email) (users w) = Some user →
  (User.role user = "admin" →
   JS.truthy (login_adminToken body) = true
   ∧ login_adminToken body = ADMIN_SECRET_TOKEN env) →
  User.isLocked user now = false →
  bcrypt_compare password (User.password user) = true →
  JS.truthy (JWT_SECRET env) = false
  ∨ JS.truthy (JWT_REFRESH_SECRET env) = false →
  respond (login env now body) w
  = (Some (status_json 500 false "Server error while logging in"),
     {| users := updateOne (User._id user) (User.set_lockout 0 None) (users w);
        calls := calls w
                 ++ [FindOne email; MatchPassword (User._id user) password;
                     ResetLoginAttempts (User._id user)] |}).
Proof.
  intros Hemail Hne Hpw Hpne Hfind Hadmin Hunlocked Hright Hunset.
  rewrite (login_reaches_password env now body w email password user) by done.
  destruct (generate_unconfigured env now (User._id user) (User.role user))
    as [Hno_access Hno_refresh].
  run. rewrite Hright. simpl.
  destruct (generateAccessToken env now (User._id user) (User.role user))
    as [accessToken|e] eqn:Haccess; simpl.
  - destruct Hunset as [Hunset | Hunset].
    + destruct (Hno_access Hunset) as [e He]. congruence.
    + destruct (Hno_refresh Hunset) as [e ->]. simpl.
      by rewrite <- !app_assoc.
  - by rewrite <- !app_assoc.
Qed.

End LoginFacts.

(** ** Sessions: refresh, logout and the current user *)

Section SessionFacts.

Context {deps : Collaborators}.

Ltac run :=
  unfold respond, admin_route, adminOnly, me, me_handler, registerAdmin,
    register, login, refresh, logout, logout_handler, protect,
    User_findOne, User_findOne_or, User_findById, User_findByIdAndUpdate_pull,
    User_create, save_refreshTokens, matchPassword, incrementLoginAttempts,
    resetLoginAttempts, try_catch, when, return_, throw, lift, log, get_users,
    put_users, mbind, M_bind, mret, M_ret;
  cbn beta iota zeta.

#[local] Arguments Jwt.verify : simpl never.
#[local] Arguments Jwt.truthy : simpl never.
#[local] Arguments generateAccessToken : simpl never.

Lemma refresh_success_run env now t decoded user akey w :
  Jwt.verify (Some t) (JWT_REFRESH_SECRET env) now = Ok decoded →
  find (λ u, String.eqb (User._id u) (Jwt.id decoded)) (users w) = Some user →
  User.isActive user = true →
  t ∈ User.token <$> User.refreshTokens user →
  JWT_SECRET env = Some akey → akey ≠ "" →
  respond (refresh env now (Some t)) w
  = (Some (json (RefreshBody
                   (Jwt.Signed
                      {| Jwt.id := User._id user;
                         Jwt.role := Some (User.role user);
                         Jwt.iat := Jwt.clockTimestamp now;
                         Jwt.exp := Jwt.clockTimestamp now + one_day |} akey))),
     {| users := users w; calls := calls w ++ [FindById (Jwt.id decoded)] |}).
Proof.
  intros Hverify Hfind Hactive Hin Ha Hane.
  destruct (generateAccessToken_configured env now (User._id user)
              (User.role user)) as (akey' & Ha' & Haccess);
    [by rewrite Ha; apply truthy_Some_ne |].
  assert (akey' = akey) as -> by congruence.
  run. rewrite (verify_Ok_truthy _ _ _ _ Hverify), Hverify. simpl.
  rewrite Hfind, Hactive. simpl.
  rewrite (proj2 (tokenExists_spec t (User.refreshTokens user)) Hin). simpl.
  by rewrite Haccess.
Qed.

Lemma refresh_rejected_run env now t e w :
  Jwt.truthy (Some t) = true →
  Jwt.verify (Some t) (JWT_REFRESH_SECRET env) now = Throw e →
  respond (refresh env now (Some t)) w
  = (Some (status_json 401 false "Invalid or expired refresh token"), w).
Proof. intros Htruthy Hverify. run. by rewrite Htruthy, Hverify. Qed.

Lemma refresh_unlisted_run env now t decoded user w :
  Jwt.verify (Some t) (JWT_REFRESH_SECRET env) now = Ok decoded →
  find (λ u, String.eqb (User._id u) (Jwt.id decoded)) (users w) = Some user →
  t ∉ User.token <$> User.refreshTokens user →
  respond (refresh env now (Some t)) w
  = (Some (status_json 401 false "Invalid refresh token"),
     {| users := users w; calls := calls w ++ [FindById (Jwt.id decoded)] |}).
Proof.
  intros Hverify Hfind Hout.
  run. rewrite (verify_Ok_truthy _ _ _ _ Hverify), Hverify. simpl.
  rewrite Hfind. destruct (User.isActive user); simpl; [| done].
  destruct (existsb _ (User.refreshTokens user)) eqn:Hexists; simpl; [| done].
  by apply tokenExists_spec in Hexists.
Qed.

Lemma verify_Ok_payload payload key secret now decoded :
  Jwt.verify (Some (Jwt.Signed payload key)) secret now = Ok decoded →
  decoded = payload.
Proof.
  unfold Jwt.verify.
  destruct (negb (JS.truthy secret)); [done |].
  destruct (negb (JS.strict_eq (Some key) secret)); [done |].
  destruct (Jwt.clockTimestamp now >=? Jwt.exp payload); [done |].
  by intros [= <-].
Qed.

(** X17: the refresh token that a login returns is accepted by the refresh
    route at any time within seven days, as long as the account is active:
    the answer is a new access token for the account's id and stored role. *)
Theorem login_then_refresh env now later body w email password user akey rkey :
  login_email body = Some email → email ≠ "" →
  login_password body = Some password → password ≠ "" →
  find (λ u, String.eqb (User.email u) email) (users w) = Some user →
  find (λ u, String.eqb (User._id u) (User._id user)) (users w) = Some user →
  (User.role user = "admin" →
   JS.truthy (login_adminToken body) = true
   ∧ login_adminToken body = ADMIN_SECRET_TOKEN env) →
  User.isLocked user now = false →
  User.isActive user = true →
  bcrypt_compare password (User.password user) = true →
  JWT_SECRET env = Some akey → akey ≠ "" →
  JWT_REFRESH_SECRET env = Some rkey → rkey ≠ "" →
  Jwt.clockTimestamp later < Jwt.clockTimestamp now + seven_days →
  ∃ accessToken refreshToken profile,
    (respond (login env now body) w).1
    = Some (json (LoginBody accessToken refreshToken profile))
    ∧ (respond (refresh env later (Some refreshToken))
         (respond (login env now body) w).2).1
      = Some (json (RefreshBody
                      (Jwt.Signed
                         {| Jwt.id := User._id user;
                            Jwt.role := Some (User.role user);
                            Jwt.iat := Jwt.clockTimestamp later;
                            Jwt.exp := Jwt.clockTimestamp later + one_day |}
                         akey))).
Proof.
  intros Hemail Hne Hpw Hpne Hfind Hid Hadmin Hunlocked Hactive Hright
    Ha Hane Hr Hrne Hlater.
  rewrite (login_success_run env now body w email password user akey rkey)
    by done.
  do 3 eexists. split; [done |]. cbn [fst snd].
  set (payload := {| Jwt.id := User._id user; Jwt.role := None;
                     Jwt.iat := Jwt.clockTimestamp now;
                     Jwt.exp := Jwt.clockTimestamp now + seven_days |}).
  set (stored := User.set_refreshTokens
                   (User.refreshTokens user
                    ++ [{| User.token := Jwt.Signed payload rkey;
                           User.createdAt := now |}])
                   (User.set_lockout 0 None user)).
  rewrite (refresh_success_run env later (Jwt.Signed payload rkey) payload
             stored akey); [done | | | done | | done | done].
  - rewrite Hr. by apply verify_signed.
  - simpl. rewrite !find_updateOne_same by done. by rewrite Hid.
  - simpl. rewrite fmap_app. apply elem_of_app. right. simpl.
    apply list_elem_of_here.
Qed.

(** X18: with two different secrets the two kinds of token are not
    interchangeable: the refresh route refuses every access token and the
    access guard refuses every refresh token that the issuer signs, both with
    401 and without a call on the user model. *)
Theorem tokens_not_interchangeable env now later userId role akey rkey w :
  JWT_SECRET env = Some akey → akey ≠ "" →
  JWT_REFRESH_SECRET env = Some rkey → rkey ≠ "" →
  akey ≠ rkey →
  (∃ accessToken,
     generateAccessToken env now userId role = Ok accessToken
     ∧ respond (refresh env later (Some accessToken)) w
       = (Some (status_json 401 false "Invalid or expired refresh token"), w))
  ∧ (∃ refreshToken,
       generateRefreshToken env now userId = Ok refreshToken
       ∧ protect env later (Bearer refreshToken) w
         = (Returned (status_json 401 false "Not authorized, invalid token"),
            w)).
Proof.
  intros Ha Hane Hr Hrne Hdiff. split.
  - destruct (generateAccessToken_configured env now userId role)
      as (akey' & Ha' & ->); [by rewrite Ha; apply truthy_Some_ne |].
    assert (akey' = akey) as -> by congruence.
    eexists. split; [done |].
    apply (refresh_rejected_run env later _
             (JsonWebTokenError "invalid signature")); [done |].
    rewrite Hr. apply verify_wrong_key; [by apply truthy_Some_ne | done].
  - unfold generateRefreshToken, Jwt.sign. rewrite Hr.
    rewrite (proj2 (truthy_string_spec rkey) Hrne).
    eexists. split; [done |].
    rewrite (protect_rejects env later _
               (JsonWebTokenError "invalid signature") w); [done | done |].
    rewrite Ha. apply verify_wrong_key; [by apply truthy_Some_ne | done].
Qed.

(** X19: the refresh route answers every token that does not verify in the
    same way, 401 with one message and no expiry code, without a call on the
    user model: an expired token of its own, a token signed with another
    key, and a string that is no token. *)
Theorem refresh_rejected_alike env now payload key secret garbage w :
  JWT_REFRESH_SECRET env = Some secret → secret ≠ "" → garbage ≠ "" →
  (key = secret → Jwt.exp payload ≤ Jwt.clockTimestamp now →
   respond (refresh env now (Some (Jwt.Signed payload key))) w
   = (Some (status_json 401 false "Invalid or expired refresh token"), w))
  ∧ (key ≠ secret →
     respond (refresh env now (Some (Jwt.Signed payload key))) w
     = (Some (status_json 401 false "Invalid or expired refresh token"), w))
  ∧ respond (refresh env now (Some (Jwt.Opaque garbage))) w
    = (Some (status_json 401 false "Invalid or expired refresh token"), w).
Proof.
  intros Hsecret Hne Hgarbage. repeat split.
  - intros -> Hexp.
    apply (refresh_rejected_run env now _ (TokenExpiredError "jwt expired"));
      [done |].
    rewrite Hsecret. by apply verify_expired.
  - intros Hkey.
    apply (refresh_rejected_run env now _
             (JsonWebTokenError "invalid signature")); [done |].
    rewrite Hsecret. apply verify_wrong_key; [by apply truthy_Some_ne | done].
  - destruct garbage as [|c rest]; [done |].
    by apply (refresh_rejected_run env now _
                (JsonWebTokenError "jwt malformed")).
Qed.

(** X20: the access token that a refresh returns passes the access guard
    until it expires a day later, and carries the role stored for the
    account at the time of the refresh. *)
Theorem refreshed_token_passes_guard env now later t decoded user akey w :
  Jwt.verify (Some t) (JWT_REFRESH_SECRET env) now = Ok decoded →
  find (λ u, String.eqb (User._id u) (Jwt.id decoded)) (users w) = Some user →
  User.isActive user = true →
  t ∈ User.token <$> User.refreshTokens user →
  JWT_SECRET env = Some akey → akey ≠ "" →
  Jwt.clockTimestamp later < Jwt.clockTimestamp now + one_day →
  ∃ accessToken,
    (respond (refresh env now (Some t)) w).1
    = Some (json (RefreshBody accessToken))
    ∧ (protect env later (Bearer accessToken)
         (respond (refresh env now (Some t)) w).2).1
      = Normal {| ru_id := User._id user; ru_role := Some (User.role user) |}.
Proof.
  intros Hverify Hfind Hactive Hin Ha Hane Hlater.
  rewrite (refresh_success_run env now t decoded user akey w) by done.
  eexists. split; [done |]. cbn [fst snd].
  assert (User._id user = Jwt.id decoded) as Hid.
  { apply find_some in Hfind as [_ Heq]. by apply String.eqb_eq. }
  set (payload := {| Jwt.id := User._id user;
                     Jwt.role := Some (User.role user);
                     Jwt.iat := Jwt.clockTimestamp now;
                     Jwt.exp := Jwt.clockTimestamp now + one_day |}).
  rewrite (protect_passes env later (Jwt.Signed payload akey) payload user);
    [done | | | done].
  - rewrite Ha. by apply verify_signed.
  - simpl. by rewrite Hid.
Qed.

(** X21: whatever it is sent, the refresh route stores nothing and makes at
    most one query on the user model. *)
Theorem refresh_never_writes env now refreshToken w :
  users (respond (refresh env now refreshToken) w).2 = users w
  ∧ (calls (respond (refresh env now refreshToken) w).2 = calls w
     ∨ ∃ id, calls (respond (refresh env now refreshToken) w).2
             = (calls w ++ [FindById id])%list).
Proof.
  run. destruct (Jwt.truthy refreshToken); simpl; [| by split; [| left]].
  destruct (Jwt.verify _ _ _) as [decoded|e]; simpl; [| by split; [| left]].
  destruct (find _ _) as [user|]; simpl; [| by split; [| right; eexists]].
  destruct (User.isActive user); simpl; [| by split; [| right; eexists]].
  destruct (existsb _ _); simpl; [| by split; [| right; eexists]].
  destruct (generateAccessToken _ _ _ _); simpl;
    by split; [| right; eexists].
Qed.

(** What GET /me answers to a request that the guard lets pass. *)
Lemma me_passes env now t decoded user w :
  Jwt.verify (Some t) (JWT_SECRET env) now = Ok decoded →
  find (λ u, String.eqb (User._id u) (Jwt.id decoded)) (users w) = Some user →
  User.isActive user = true →
  me env now (Bearer t) w
  = (Normal (select_profile user),
     {| users := users w;
        calls := (calls w ++ [FindById (Jwt.id decoded)])
                 ++ [FindById (Jwt.id decoded)] |}).
Proof.
  intros Hverify Hfind Hactive. unfold me, mbind, M_bind.
  rewrite (protect_passes env now t decoded user w) by done.
  run. simpl. by rewrite Hfind.
Qed.

(** X22: GET /me answers a request that carries a [Bearer] token verifying
    under the access secret, for a stored and active subject, with the
    stored document of that subject without password and refresh tokens, and
    answers only such a request so; every other request gets the guard's
    401.  In a run without interleaving it answers neither 404 nor 500, and
    it never changes the collection. *)
Theorem me_outcome env now auth w :
  users (me env now auth w).2 = users w
  ∧ (∀ t decoded user,
       auth = Bearer t →
       Jwt.verify (Some t) (JWT_SECRET env) now = Ok decoded →
       find (λ u, String.eqb (User._id u) (Jwt.id decoded)) (users w)
       = Some user →
       User.isActive user = true →
       (me env now auth w).1 = Normal (select_profile user))
  ∧ (∀ profile,
       (me env now auth w).1 = Normal profile →
       ∃ t decoded user,
         auth = Bearer t
         ∧ Jwt.verify (Some t) (JWT_SECRET env) now = Ok decoded
         ∧ find (λ u, String.eqb (User._id u) (Jwt.id decoded)) (users w)
           = Some user
         ∧ User.isActive user = true
         ∧ profile = select_profile user)
  ∧ ((∃ profile, (me env now auth w).1 = Normal profile)
     ∨ (∃ response,
          (me env now auth w).1 = Returned response
          ∧ status response = 401)).
Proof.
  destruct (protect_cases env now auth w)
    as [(t & decoded & user & -> & Hverify & Hfind & Hactive & Hrun)
       | (r & w' & Hrun & Husers & Hstatus & _)].
  - rewrite (me_passes env now t decoded user w) by done. simpl.
    split; [done |]. split; [| split].
    + intros t' decoded' user' [= <-] Hverify' Hfind'.
      assert (decoded' = decoded) as -> by congruence.
      assert (user' = user) as -> by congruence. done.
    + intros profile [= <-]. by exists t, decoded, user.
    + left. by eexists.
  - unfold me, mbind, M_bind. rewrite Hrun. simpl.
    split; [done |]. split; [| split].
    + intros t decoded user -> Hverify Hfind Hactive.
      rewrite (protect_passes env now t decoded user w) in Hrun by done.
      done.
    + done.
    + right. by exists r.
Qed.

(** X23: a logout that the access guard refuses is answered with the guard's
    401 and removes no refresh token. *)
Theorem logout_unauthenticated env now auth refreshToken w response :
  (protect env now auth w).1 = Returned response →
  (respond (logout env now auth refreshToken) w).1 = Some response
  ∧ status response = 401
  ∧ users (respond (logout env now auth refreshToken) w).2 = users w.
Proof.
  intros Hrefused.
  destruct (protect_cases env now auth w)
    as [(t & decoded & user & _ & _ & _ & _ & Hrun)
       | (r & w' & Hrun & Husers & Hstatus & _)];
    rewrite Hrun in Hrefused; simpl in Hrefused; [done |].
  injection Hrefused as <-.
  unfold respond, logout, mbind, M_bind. rewrite Hrun. by simpl.
Qed.

(** X24: a logout removes the given token, every copy of it, from the
    caller's own list and nothing else: the caller's other refresh tokens
    stay, and the documents of all other users are as before, also when the
    token is theirs. *)
Theorem logout_removes_only_callers_token env now auth t w caller doc :
  (protect env now auth w).1 = Normal caller →
  Jwt.truthy (Some t) = true →
  find (λ u, String.eqb (User._id u) (ru_id caller)) (users w) = Some doc →
  find (λ u, String.eqb (User._id u) (ru_id caller))
    (users (respond (logout env now auth (Some t)) w).2)
  = Some (pull t doc)
  ∧ (t ∉ User.token <$> User.refreshTokens (pull t doc))
  ∧ (∀ r, r ∈ User.refreshTokens doc → User.token r ≠ t →
          r ∈ User.refreshTokens (pull t doc))
  ∧ (∀ id, id ≠ ru_id caller →
           find (λ u, String.eqb (User._id u) id)
             (users (respond (logout env now auth (Some t)) w).2)
           = find (λ u, String.eqb (User._id u) id) (users w)).
Proof.
  intros (ta & decoded & user & -> & Hverify & Hfind & Hactive & ->)
    %protect_passes_inv Htruthy Hdoc.
  simpl in Hdoc.
  destruct (logout_authenticated env now ta decoded user (Some t) w)
    as [log' ->]; [done.. |].
  rewrite Htruthy. simpl. repeat split.
  - rewrite find_updateOne_same by done. by rewrite Hdoc.
  - apply filter_pulled.
  - intros r Hr Hne. apply list_elem_of_filter. by split.
  - intros id Hother. by rewrite find_updateOne_other.
Qed.

(** A refresh succeeds only for a token that its subject's list holds. *)
Lemma refresh_success_listed env now payload key w response :
  (respond (refresh env now (Some (Jwt.Signed payload key))) w).1
  = Some response →
  success response = true →
  ∃ doc,
    find (λ u, String.eqb (User._id u) (Jwt.id payload)) (users w) = Some doc
    ∧ Jwt.Signed payload key ∈ User.token <$> User.refreshTokens doc.
Proof.
  run. assert (Jwt.truthy (Some (Jwt.Signed payload key)) = true) as -> by done.
  simpl.
  destruct (Jwt.verify _ _ _) as [decoded|e] eqn:Hverify; simpl;
    [| by intros [= <-]].
  apply verify_Ok_payload in Hverify as ->.
  destruct (find _ (users w)) as [doc|]; simpl; [| by intros [= <-]].
  destruct (User.isActive doc); simpl; [| by intros [= <-]].
  destruct (existsb _ (User.refreshTokens doc)) eqn:Hexists; simpl;
    [| by intros [= <-]].
  intros _ _. exists doc. split; [done |]. by apply tokenExists_spec.
Qed.

Lemma refresh_unlisted_refused env now payload key w doc :
  find (λ u, String.eqb (User._id u) (Jwt.id payload)) (users w) = Some doc →
  Jwt.Signed payload key ∉ User.token <$> User.refreshTokens doc →
  ∃ response,
    (respond (refresh env now (Some (Jwt.Signed payload key))) w).1
    = Some response
    ∧ status response = 401
    ∧ success response = false.
Proof.
  intros Hfind Hout.
  destruct (Jwt.verify (Some (Jwt.Signed payload key))
              (JWT_REFRESH_SECRET env) now) as [decoded|e] eqn:Hrefresh.
  - apply verify_Ok_payload in Hrefresh as Hsame. subst decoded.
    erewrite refresh_unlisted_run; [by eexists | done | done | done].
  - rewrite (refresh_rejected_run env now _ e) by done. by eexists.
Qed.

(** X25: revocation is by list membership.  The state that a logout by its
    owner leaves does not hold the refresh token in the owner's list; in
    every state where the subject's list does not hold a token, the refresh
    route answers it with 401, at any time and whether or not its signature
    and expiry are good; and the route accepts a token only in a state where
    the subject's list holds it. *)
Theorem logout_revokes env now later auth payload key w caller :
  (protect env now auth w).1 = Normal caller →
  Jwt.id payload = ru_id caller →
  (∃ doc,
     find (λ u, String.eqb (User._id u) (Jwt.id payload))
       (users (respond (logout env now auth (Some (Jwt.Signed payload key)))
                 w).2)
     = Some doc
     ∧ Jwt.Signed payload key ∉ User.token <$> User.refreshTokens doc)
  ∧ (∃ response,
       (respond (refresh env later (Some (Jwt.Signed payload key)))
          (respond (logout env now auth (Some (Jwt.Signed payload key))) w).2).1
       = Some response
       ∧ status response = 401
       ∧ success response = false)
  ∧ (∀ w' doc,
       find (λ u, String.eqb (User._id u) (Jwt.id payload)) (users w')
       = Some doc →
       Jwt.Signed payload key ∉ User.token <$> User.refreshTokens doc →
       ∃ response,
         (respond (refresh env later (Some (Jwt.Signed payload key))) w').1
         = Some response
         ∧ status response = 401
         ∧ success response = false)
  ∧ (∀ w' response,
       (respond (refresh env later (Some (Jwt.Signed payload key))) w').1
       = Some response →
       success response = true →
       ∃ doc,
         find (λ u, String.eqb (User._id u) (Jwt.id payload)) (users w')
         = Some doc
         ∧ Jwt.Signed payload key ∈ User.token <$> User.refreshTokens doc).
Proof.
  intros (ta & decoded & user & -> & Hverify & Hfind & Hactive & ->)
    %protect_passes_inv Hsubject.
  simpl in Hsubject.
  destruct (logout_authenticated env now ta decoded user
              (Some (Jwt.Signed payload key)) w) as [log' ->]; [done.. |].
  assert (Jwt.truthy (Some (Jwt.Signed payload key)) = true) as -> by done.
  cbn [fst snd users].
  assert (find (λ u, String.eqb (User._id u) (Jwt.id payload))
            (updateOne (Jwt.id decoded) (pull (Jwt.Signed payload key))
               (users w))
          = Some (pull (Jwt.Signed payload key) user)) as Hafter.
  { rewrite Hsubject, find_updateOne_same by done. by rewrite Hfind. }
  split; [| split; [| split]].
  - eexists. split; [exact Hafter | apply filter_pulled].
  - eapply refresh_unlisted_refused; [exact Hafter | apply filter_pulled].
  - intros w' doc. apply refresh_unlisted_refused.
  - intros w' response. apply refresh_success_listed.
Qed.

End SessionFacts.

(** ** The inquiry route *)

Section InquiryFacts.

Import Whatsapp.

Variable isObjectId : string → bool.
Variable env : Env.
Variable products : list product_doc.

Lemma filter_length_le {A} (P Q : A → bool) (l : list A) :
  (∀ x, P x = true → Q x = true) →
  (length (List.filter P l) ≤ length (List.filter Q l))%nat.
Proof.
  intros HPQ. induction l as [|a l IH]; simpl; [done |].
  destruct (P a) eqn:HP.
  - rewrite (HPQ a HP). simpl. lia.
  - destruct (Q a); simpl; lia.
Qed.

Lemma in_hour_app id ip T l i :
  in_hour id ip T (l ++ [i])%list
  = in_hour id ip T l
    + (if String.eqb (product i) id && String.eqb (ipAddress i) ip
          && (timestamp i >=? T - 3600000) && (timestamp i <=? T)
       then 1 else 0).
Proof.
  unfold in_hour. rewrite List.filter_app, length_app. simpl.
  destruct (_ && _ && _ && _); simpl; lia.
Qed.

(** What it takes for the two reads to let the request go on. *)
Lemma lookup_and_count_proceeds f req now inquiries :
  lookup_and_count isObjectId products f req now inquiries = Proceed →
  findOne_throws f = false
  ∧ countDocuments_throws f = false
  ∧ isObjectId (id req) = true
  ∧ (∃ p, p ∈ products ∧ _id p = id req ∧ isActive p = true)
  ∧ Z.of_nat (length (List.filter
                        (recent (id req) (ip req) (now - 3600000)) inquiries))
    < 3.
Proof.
  unfold lookup_and_count.
  destruct (findOne_throws f); simpl; [done |].
  destruct (isObjectId (id req)); simpl; [| done].
  destruct (find _ products) as [p|] eqn:Hfind; [| done].
  apply find_some in Hfind as [Hin [Hid Hact]%andb_true_iff].
  apply String.eqb_eq in Hid. apply list_elem_of_In in Hin.
  destruct (countDocuments_throws f); [done |].
  rewrite Z.geb_leb.
  destruct (Z.leb_spec 3 (Z.of_nat (length (List.filter
              (recent (id req) (ip req) (now - 3600000)) inquiries))));
    [done |].
  intros _. repeat split; try done. by exists p.
Qed.


Lemma create_cases f req now inquiries :
  (create env f req now inquiries).2 = inquiries
  ∨ (create env f req now inquiries).2
    = (inquiries ++ [new_inquiry req now])%list.
Proof.
  unfold create. destruct (create_throws f); [by left |].
  right. by destruct (sign_link _ _ _ _).
Qed.


Lemma run_app events events' s :
  run isObjectId env products (events ++ events') s
  = run isObjectId env products events' (run isObjectId env products events s).
Proof.
  revert s. induction events as [|e events IH]; intros s; [done |].
  simpl. apply IH.
Qed.

(** One request served to its end, with nothing in flight before, leaves
    nothing in flight and at most one more inquiry, logged only when fewer
    than 3 were counted. *)
Lemma served_alone c s :
  in_flight s = [] →
  let s' := run isObjectId env products (in_turn [c]) s in
  in_flight s' = []
  ∧ (inquiries s' = inquiries s
     ∨ (Z.of_nat (length (List.filter
                            (recent (id (c_req c)) (ip (c_req c))
                               (counted c - 3600000))
                            (inquiries s)))
        < 3
        ∧ inquiries s'
          = (inquiries s ++ [new_inquiry (c_req c) (created c)])%list)).
Proof.
  intros Hnone. cbn zeta. unfold in_turn. simpl.
  destruct (RateLimit.whatsappLimiter _ (arrived c) (store s))
    as [[|r] store'] eqn:Hlimit; simpl; rewrite ?Hnone; simpl;
    [| by split; [| left]].
  destruct (check_honeypot (c_req c)); simpl; rewrite ?Hnone; simpl;
    [by split; [| left] |].
  destruct (lookup_and_count isObjectId products (c_faults c) (c_req c)
              (counted c) (inquiries s)) as [r|] eqn:Hreads; simpl;
    [by split; [| left] |].
  apply lookup_and_count_proceeds in Hreads as (_ & _ & _ & _ & Hfew).
  destruct (create env (c_faults c) (c_req c) (created c) (inquiries s))
    as [a inquiries'] eqn:Hcreate. simpl.
  split; [done |].
  destruct (create_cases (c_faults c) (c_req c) (created c) (inquiries s))
    as [Hsame | Hlogged]; rewrite Hcreate in *; simpl in *.
  - by left.
  - by right.
Qed.

Lemma served_alone_keeps_limit c s :
  in_flight s = [] →
  counted c ≤ created c →
  (∀ id ip T, in_hour id ip T (inquiries s) ≤ 3) →
  ∀ id ip T,
    in_hour id ip T
      (inquiries (run isObjectId env products (in_turn [c]) s)) ≤ 3.
Proof.
  intros Hnone Hclock Hinv pid pip T.
  destruct (served_alone c s Hnone) as [_ [-> | [Hfew ->]]]; [done |].
  rewrite in_hour_app. simpl.
  destruct (String.eqb_spec (id (c_req c)) pid) as [<- |]; simpl;
    [| specialize (Hinv pid pip T); lia].
  destruct (String.eqb_spec (ip (c_req c)) pip) as [<- |]; simpl;
    [| specialize (Hinv (id (c_req c)) pip T); lia].
  rewrite Z.geb_leb.
  destruct (Z.leb_spec (T - 3600000) (created c)); simpl;
    [| specialize (Hinv (id (c_req c)) (ip (c_req c)) T); lia].
  destruct (Z.leb_spec (created c) T); simpl;
    [| specialize (Hinv (id (c_req c)) (ip (c_req c)) T); lia].
  assert (in_hour (id (c_req c)) (ip (c_req c)) T (inquiries s)
          ≤ Z.of_nat (length (List.filter
                                (recent (id (c_req c)) (ip (c_req c))
                                   (counted c - 3600000))
                                (inquiries s)))) as Hle; [| lia].
  unfold in_hour. apply inj_le, filter_length_le. intros i.
  unfold recent. rewrite !andb_true_iff, !Z.geb_leb, !Z.leb_le.
  intros [[[Hp Ha] Hlo] Hhi]. repeat split; [done | done | lia].
Qed.

(** X27: when the requests are served in turn, each one answered before the
    next arrives, and the clock does not go back between a request's count
    and its write, the inquiries logged for one product from one address
    number at most 3 in any span of an hour.  Requests in flight together
    are not bound so: each of them counts before the others write. *)
Theorem inquiries_hourly_limit calls s :
  in_flight s = [] →
  (∀ id ip T, in_hour id ip T (inquiries s) ≤ 3) →
  Forall (λ c, counted c ≤ created c) calls →
  ∀ id ip T,
    in_hour id ip T
      (inquiries (run isObjectId env products (in_turn calls) s)) ≤ 3.
Proof.
  revert s. induction calls as [|c rest IH]; intros s Hnone Hinv Hclock;
    [done |].
  apply Forall_cons in Hclock as [Hc Hrest].
  change (in_turn (c :: rest)) with (in_turn [c] ++ in_turn rest)%list.
  rewrite run_app. apply IH; [| | done].
  - by destruct (served_alone c s Hnone).
  - by apply served_alone_keeps_limit.
Qed.

End InquiryFacts.

(** ** The slug *)

Section SlugFacts.

Import Slug.

Lemma slug_char_of c :
  slug_char (if alphanumeric (lower_char c) then lower_char c else dash) = true.
Proof. destruct c as [[] [] [] [] [] [] [] []]; vm_compute; reflexivity. Qed.

Lemma dash_of c :
  is_dash (if alphanumeric (lower_char c) then lower_char c else dash)
  = negb (alphanumeric c).
Proof. destruct c as [[] [] [] [] [] [] [] []]; vm_compute; reflexivity. Qed.

Lemma slug_char_fixed c :
  slug_char c = true →
  lower_char c = c ∧ (if alphanumeric c then c else dash) = c.
Proof.
  destruct c as [[] [] [] [] [] [] [] []]; vm_compute; (done || by split).
Qed.

Lemma replaced_chars name :
  forallb slug_char
    (String.list_ascii_of_string (replace_non_alphanumeric (toLowerCase name)))
  = true.
Proof.
  induction name as [|c name IH]; [done |].
  cbn [toLowerCase replace_non_alphanumeric map_string
       String.list_ascii_of_string forallb].
  rewrite slug_char_of. exact IH.
Qed.

Lemma collapse_not_dash c rest :
  is_dash c = false →
  collapse_dashes (String c rest) = String c (collapse_dashes rest).
Proof. intros Hc. simpl. by rewrite Hc. Qed.

Lemma collapse_chars P s :
  forallb P (String.list_ascii_of_string s) = true →
  forallb P (String.list_ascii_of_string (collapse_dashes s)) = true.
Proof.
  induction s as [|c s IH]; [done |].
  intros [Hc Hs]%andb_true_iff. specialize (IH Hs).
  cbn [collapse_dashes]. destruct (is_dash c).
  - destruct s as [|c' s']; [by simpl; rewrite Hc |].
    destruct (is_dash c'); [done |].
    cbn [String.list_ascii_of_string forallb]. by rewrite Hc, IH.
  - cbn [String.list_ascii_of_string forallb]. by rewrite Hc, IH.
Qed.

Lemma drop_last_chars P s :
  forallb P (String.list_ascii_of_string s) = true →
  forallb P (String.list_ascii_of_string (drop_last_dash s)) = true.
Proof.
  induction s as [|c s IH]; [done |].
  intros [Hc Hs]%andb_true_iff. specialize (IH Hs).
  destruct s as [|c' s'].
  - simpl. destruct (is_dash c); [done | by simpl; rewrite Hc].
  - change (drop_last_dash (String c (String c' s')))
      with (String c (drop_last_dash (String c' s'))).
    cbn [String.list_ascii_of_string forallb]. by rewrite Hc, IH.
Qed.

Lemma trim_chars P s :
  forallb P (String.list_ascii_of_string s) = true →
  forallb P (String.list_ascii_of_string (trim_dashes s)) = true.
Proof.
  destruct s as [|c s]; [done |]. intros Hall. unfold trim_dashes.
  destruct (is_dash c); [| by apply drop_last_chars].
  apply drop_last_chars. simpl in Hall. by apply andb_true_iff in Hall as [_ ?].
Qed.

Lemma no_double_not_dash c s :
  is_dash c = false → no_double_dash (String c s) = no_double_dash s.
Proof. intros Hc. simpl. rewrite Hc. by destruct s. Qed.

Lemma no_double_tail c s :
  no_double_dash (String c s) = true → no_double_dash s = true.
Proof.
  simpl. destruct s as [|c' s']; [done |]. by intros [_ ?]%andb_true_iff.
Qed.

Lemma collapse_no_double s : no_double_dash (collapse_dashes s) = true.
Proof.
  induction s as [|c s IH]; [done |].
  destruct (is_dash c) eqn:Hc.
  - destruct s as [|c' s']; [by simpl; rewrite Hc |].
    destruct (is_dash c') eqn:Hc'.
    + simpl. rewrite Hc, Hc'. simpl in IH. by rewrite Hc' in IH.
    + assert (collapse_dashes (String c (String c' s'))
              = String c (String c' (collapse_dashes s'))) as ->.
      { simpl. by rewrite Hc, Hc'. }
      rewrite collapse_not_dash in IH by done.
      change (negb (is_dash c && is_dash c')
              && no_double_dash (String c' (collapse_dashes s')) = true).
      by rewrite Hc', andb_false_r, IH.
  - rewrite collapse_not_dash, no_double_not_dash by done. exact IH.
Qed.

Lemma drop_last_head c s :
  (drop_last_dash (String c s) = EmptyString ∧ s = EmptyString
   ∧ is_dash c = true)
  ∨ ∃ rest, drop_last_dash (String c s) = String c rest.
Proof.
  destruct s as [|c' s'].
  - simpl. destruct (is_dash c); [by left | right; by eexists].
  - right. by eexists.
Qed.

Lemma drop_last_no_dash_run s :
  no_double_dash s = true → no_dash_run (drop_last_dash s) = true.
Proof.
  induction s as [|c s IH]; [done |]. intros Hs.
  destruct s as [|c' s'].
  - simpl. destruct (is_dash c) eqn:Hc; [done | by simpl; rewrite Hc].
  - specialize (IH (no_double_tail _ _ Hs)).
    change (drop_last_dash (String c (String c' s')))
      with (String c (drop_last_dash (String c' s'))).
    simpl in Hs. apply andb_true_iff in Hs as [Hpair _].
    destruct (drop_last_head c' s') as [(Hempty & _ & Hc') | [rest Hrest]].
    + rewrite Hempty. simpl. rewrite Hc' in Hpair.
      by destruct (is_dash c).
    + rewrite Hrest in IH |- *.
      change (negb (is_dash c && is_dash c')
              && no_dash_run (String c' rest) = true).
      by rewrite Hpair, IH.
Qed.

Lemma trim_shape s :
  no_double_dash s = true →
  no_dash_run (trim_dashes s) = true ∧ no_leading_dash (trim_dashes s) = true.
Proof.
  destruct s as [|c s]; [done |]. intros Hs. unfold trim_dashes.
  destruct (is_dash c) eqn:Hc.
  - split; [apply drop_last_no_dash_run; by eapply no_double_tail |].
    destruct s as [|c' s']; [done |].
    simpl in Hs. rewrite Hc in Hs. apply andb_true_iff in Hs as [Hc' _].
    destruct (drop_last_head c' s') as [(-> & _) | [rest ->]]; [done |].
    simpl. by destruct (is_dash c').
  - split; [by apply drop_last_no_dash_run |].
    destruct (drop_last_head c s) as [(-> & _) | [rest ->]]; [done |].
    simpl. by rewrite Hc.
Qed.

Lemma slugify_shape_parts name :
  forallb slug_char (String.list_ascii_of_string (slugify name)) = true
  ∧ no_dash_run (slugify name) = true
  ∧ no_leading_dash (slugify name) = true.
Proof.
  unfold slugify. split.
  - apply trim_chars, collapse_chars, replaced_chars.
  - apply trim_shape, collapse_no_double.
Qed.

(** X28: the slug of any name is made of [a-z], [0-9] and dashes, with no
    dash at its start or end and no two dashes in a row. *)
Theorem slugify_shape name :
  (∀ c, c ∈ String.list_ascii_of_string (slugify name) →
        Regex.lower c = true ∨ Regex.digit c = true ∨ c = dash)
  ∧ no_dash_run (slugify name) = true
  ∧ no_leading_dash (slugify name) = true.
Proof.
  destruct (slugify_shape_parts name) as (Hchars & Hrun & Hlead).
  split; [| done]. intros c Hc. apply list_elem_of_In in Hc.
  pose proof (proj1 (forallb_forall _ _) Hchars c Hc) as Hslug.
  unfold slug_char in Hslug.
  apply orb_true_iff in Hslug as [[? | ?]%orb_true_iff | Hdash]; [by left | by right; left |].
  right; right. by apply Ascii.eqb_eq in Hdash.
Qed.

Lemma map_string_fixed f s :
  (∀ c, c ∈ String.list_ascii_of_string s → f c = c) → map_string f s = s.
Proof.
  induction s as [|c s IH]; [done |]. intros Hf. simpl.
  rewrite Hf by apply list_elem_of_here.
  f_equal. apply IH. intros c' Hc'. apply Hf. by apply list_elem_of_further.
Qed.

Lemma no_dash_run_no_double s :
  no_dash_run s = true → no_double_dash s = true.
Proof.
  induction s as [|c s IH]; [done |]. simpl.
  destruct s as [|c' s']; [done |].
  intros [Hpair Hrest]%andb_true_iff. by rewrite Hpair, IH.
Qed.

Lemma collapse_fixed s : no_double_dash s = true → collapse_dashes s = s.
Proof.
  induction s as [|c s IH]; [done |]. intros Hs.
  specialize (IH (no_double_tail _ _ Hs)).
  destruct (is_dash c) eqn:Hc.
  - destruct s as [|c' s']; [by simpl; rewrite Hc |].
    simpl in Hs. rewrite Hc in Hs. apply andb_true_iff in Hs as [Hc' _].
    apply negb_true_iff in Hc'. simpl in Hc'.
    assert (collapse_dashes (String c (String c' s'))
            = String c (collapse_dashes (String c' s'))) as ->.
    { simpl. by rewrite Hc, Hc'. }
    by rewrite IH.
  - rewrite collapse_not_dash by done. by rewrite IH.
Qed.

Lemma drop_last_fixed s : no_dash_run s = true → drop_last_dash s = s.
Proof.
  induction s as [|c s IH]; [done |]. intros Hs.
  destruct s as [|c' s'].
  - simpl in *. by destruct (is_dash c).
  - change (drop_last_dash (String c (String c' s')))
      with (String c (drop_last_dash (String c' s'))).
    simpl in Hs. apply andb_true_iff in Hs as [_ Hrest].
    by rewrite IH.
Qed.

(** X29: a slug is its own slug, so saving a category under a name that is
    already a slug keeps it, and deriving the slug twice changes nothing. *)
Theorem slugify_idempotent name : slugify (slugify name) = slugify name.
Proof.
  destruct (slugify_shape_parts name) as (Hchars & Hrun & Hlead).
  set (t := slugify name) in *. unfold slugify.
  assert (toLowerCase t = t) as ->.
  { apply map_string_fixed. intros c Hc.
    apply slug_char_fixed. apply list_elem_of_In in Hc.
    by apply (proj1 (forallb_forall _ _) Hchars). }
  assert (replace_non_alphanumeric t = t) as ->.
  { apply map_string_fixed. intros c Hc.
    apply slug_char_fixed. apply list_elem_of_In in Hc.
    by apply (proj1 (forallb_forall _ _) Hchars). }
  rewrite collapse_fixed by (by apply no_dash_run_no_double).
  destruct t as [|c t']; [done |]. unfold trim_dashes.
  simpl in Hlead. apply negb_true_iff in Hlead. rewrite Hlead.
  by apply drop_last_fixed.
Qed.

Lemma has_non_dash_replaced name :
  has_non_dash (replace_non_alphanumeric (toLowerCase name))
  = existsb alphanumeric (String.list_ascii_of_string name).
Proof.
  unfold has_non_dash. induction name as [|c name IH]; [done |].
  cbn [toLowerCase replace_non_alphanumeric map_string
       String.list_ascii_of_string existsb].
  rewrite dash_of, negb_involutive. f_equal. exact IH.
Qed.

Lemma has_non_dash_cons c s :
  has_non_dash (String c s) = negb (is_dash c) || has_non_dash s.
Proof. done. Qed.

Lemma has_non_dash_collapse s :
  has_non_dash (collapse_dashes s) = has_non_dash s.
Proof.
  induction s as [|c s IH]; [done |].
  destruct (is_dash c) eqn:Hc.
  - destruct s as [|c' s']; [by simpl; rewrite Hc |].
    destruct (is_dash c') eqn:Hc'.
    + assert (collapse_dashes (String c (String c' s'))
              = collapse_dashes (String c' s')) as ->
        by (simpl; by rewrite Hc, Hc').
      rewrite IH, (has_non_dash_cons c). by rewrite Hc.
    + assert (collapse_dashes (String c (String c' s'))
              = String c (collapse_dashes (String c' s'))) as ->
        by (simpl; by rewrite Hc, Hc').
      by rewrite !(has_non_dash_cons c), IH.
  - rewrite collapse_not_dash by done.
    by rewrite !(has_non_dash_cons c), IH.
Qed.

Lemma has_non_dash_drop_last s :
  has_non_dash (drop_last_dash s) = has_non_dash s.
Proof.
  induction s as [|c s IH]; [done |].
  destruct s as [|c' s'].
  - simpl. destruct (is_dash c) eqn:Hc; [| done].
    unfold has_non_dash. simpl. by rewrite Hc.
  - change (drop_last_dash (String c (String c' s')))
      with (String c (drop_last_dash (String c' s'))).
    by rewrite !(has_non_dash_cons c), IH.
Qed.

Lemma has_non_dash_trim s : has_non_dash (trim_dashes s) = has_non_dash s.
Proof.
  destruct s as [|c s]; [done |]. unfold trim_dashes.
  destruct (is_dash c) eqn:Hc; rewrite has_non_dash_drop_last; [| done].
  rewrite (has_non_dash_cons c). by rewrite Hc.
Qed.

(** The slug is empty exactly for a string without a character of
    [[a-zA-Z0-9]]. *)
Lemma slugify_empty_chars name :
  (slugify name = EmptyString
   ↔ ∀ c, c ∈ String.list_ascii_of_string name → alphanumeric c = false)
  ∧ has_non_dash (slugify name)
    = existsb alphanumeric (String.list_ascii_of_string name).
Proof.
  assert (has_non_dash (slugify name)
          = existsb alphanumeric (String.list_ascii_of_string name)) as Hsame.
  { unfold slugify.
    by rewrite has_non_dash_trim, has_non_dash_collapse, has_non_dash_replaced. }
  split; [| done].
  destruct (slugify_shape_parts name) as (_ & _ & Hlead).
  split.
  - intros Hempty c Hc. rewrite Hempty in Hsame.
    destruct (alphanumeric c) eqn:Halnum; [| done].
    assert (existsb alphanumeric (String.list_ascii_of_string name) = true)
      as Hex; [| by rewrite Hex in Hsame].
    apply existsb_exists. exists c. split; [by apply list_elem_of_In | done].
  - intros Hnone.
    assert (existsb alphanumeric (String.list_ascii_of_string name) = false)
      as Hex.
    { apply not_true_is_false. intros (c & Hc & Halnum)%existsb_exists.
      apply list_elem_of_In in Hc. by rewrite (Hnone c Hc) in Halnum. }
    rewrite Hex in Hsame.
    destruct (slugify name) as [|c t]; [done |].
    rewrite has_non_dash_cons in Hsame. simpl in Hlead.
    by rewrite Hlead in Hsame.
Qed.


Lemma alphanumeric_of_code_unit u c :
  of_code_unit u = Some c → alphanumeric c = alphanumeric_unit u.
Proof.
  unfold of_code_unit. destruct (Nat.ltb_spec u 256) as [Hlt |]; [| done].
  intros [= <-].
  unfold alphanumeric, alphanumeric_unit, Regex.lower, Regex.upper,
    Regex.digit, Regex.between.
  by rewrite Ascii.nat_ascii_embedding.
Qed.

Lemma alphanumeric_of_code_units units name :
  of_code_units units = Some name →
  existsb alphanumeric (String.list_ascii_of_string name)
  = existsb alphanumeric_unit units.
Proof.
  revert name. induction units as [|u rest IH]; intros name; simpl.
  - by intros [= <-].
  - destruct (of_code_unit u) as [c|] eqn:Hu; [| done].
    destruct (of_code_units rest) as [s|]; [| done].
    intros [= <-]. simpl.
    by rewrite (alphanumeric_of_code_unit u c Hu), (IH s).
Qed.

(** X30: for a name whose code units all lie below 256 (the characters of
    Latin-1), the slug is empty exactly when the name has no character of
    [a-zA-Z0-9], the empty name among them; every other such name has a slug
    that holds a letter or a digit.  (With a unit from 256 on the equivalence
    fails: the Kelvin sign U+212A is no character of [a-zA-Z0-9], and its
    lower-case form is k.) *)
Theorem slugify_empty units name :
  of_code_units units = Some name →
  (slugify name = EmptyString
   ↔ ∀ u, u ∈ units → alphanumeric_unit u = false)
  ∧ has_non_dash (slugify name) = existsb alphanumeric_unit units.
Proof.
  intros Hname.
  destruct (slugify_empty_chars name) as [Hempty Hsame].
  rewrite (alphanumeric_of_code_units units name Hname) in Hsame.
  split; [| done]. clear Hempty.
  destruct (slugify_shape_parts name) as (_ & _ & Hlead).
  split.
  - intros Hempty u Hu. rewrite Hempty in Hsame.
    destruct (alphanumeric_unit u) eqn:Halnum; [| done].
    assert (existsb alphanumeric_unit units = true) as Hex;
      [| by rewrite Hex in Hsame].
    apply existsb_exists. exists u. split; [by apply list_elem_of_In | done].
  - intros Hnone.
    assert (existsb alphanumeric_unit units = false) as Hex.
    { apply not_true_is_false. intros (u & Hu & Halnum)%existsb_exists.
      apply list_elem_of_In in Hu. by rewrite (Hnone u Hu) in Halnum. }
    rewrite Hex in Hsame.
    destruct (slugify name) as [|c t]; [done |].
    rewrite has_non_dash_cons in Hsame. simpl in Hlead.
    by rewrite Hlead in Hsame.
Qed.

End SlugFacts.

(** ** The further properties at the sample data *)

Lemma sample_users_listed (P : User.doc → Prop) :
  P alice → P bob → P root → ∀ u, u ∈ users sample_world → P u.
Proof.
  intros Ha Hb Hr u Hu. simpl in Hu.
  repeat (apply elem_of_cons in Hu as [-> | Hu]; [done |]).
  by apply elem_of_nil in Hu.
Qed.

(** bob's access token passes the guard. *)
Lemma protect_outcome_witness :
  (protect sample_env 1000000 (Bearer bob_access) sample_world).1
  = Normal {| ru_id := "6501b"; ru_role := Some "user" |}.
Proof.
  apply (proj1 (proj2 (protect_outcome sample_env 1000000 (Bearer bob_access)
                         sample_world))
           bob_access
           {| Jwt.id := "6501b"; Jwt.role := Some "user";
              Jwt.iat := 1000; Jwt.exp := 87400 |} bob);
    reflexivity.
Defined.

Lemma protect_expired_or_forged_witness :
  protect sample_env 100000000 (Bearer bob_access) sample_world
  = (Returned {| status := 401;
                 body := MessageCode false "Token expired" "TOKEN_EXPIRED" |},
     sample_world)
  ∧ protect sample_env 1000000 (Bearer bob_refresh) sample_world
    = (Returned (status_json 401 false "Not authorized, invalid token"),
       sample_world).
Proof.
  split.
  - apply (proj1 (protect_expired_or_forged sample_env 100000000
                    {| Jwt.id := "6501b"; Jwt.role := Some "user";
                       Jwt.iat := 1000; Jwt.exp := 87400 |}
                    "access-secret" "access-secret" sample_world
                    eq_refl ltac:(discriminate)));
      [reflexivity | vm_compute; discriminate].
  - apply (proj2 (protect_expired_or_forged sample_env 1000000
                    {| Jwt.id := "6501b"; Jwt.role := None;
                       Jwt.iat := 1000; Jwt.exp := 605800 |}
                    "refresh-secret" "access-secret" sample_world
                    eq_refl ltac:(discriminate))).
    discriminate.
Defined.

(** bob's stored role is [user]; a token that says [admin] opens the admin
    routes all the same. *)
Lemma admin_route_guard_witness :
  User.role bob = "user"
  ∧ admin_route sample_env 1000000 (Bearer bob_as_admin)
      (λ _, return_ logged_out) sample_world
    = (Returned logged_out,
       {| users := users sample_world; calls := [FindById "6501b"] |}).
Proof.
  split; [reflexivity |].
  exact (admin_route_guard sample_env 1000000 (Bearer bob_as_admin)
           (λ _, return_ logged_out) sample_world).
Defined.

Lemma register_creates_user_witness :
  respond (register (deps := sample_collaborators) carol_signup) sample_world
  = (Some (status_json 201 true "User registered successfully"),
     {| users := users sample_world
                 ++ [{| User._id := "6501000";
                        User.username := "carol";
                        User.email := "carol@example.com";
                        User.password := "$2b$swordfish";
                        User.role := "user"; User.isActive := true;
                        User.loginAttempts := 0; User.lockUntil := None;
                        User.refreshTokens := [] |}];
        calls := [FindOneOr "carol@example.com" "carol"; Save "6501000"] |}).
Proof.
  apply (@register_creates_user sample_collaborators carol_signup sample_world
           "carol" "carol@example.com" "swordfish");
    [discriminate | reflexivity | discriminate | reflexivity | discriminate
    | reflexivity | simpl; lia |].
  apply sample_users_listed; split; discriminate.
Defined.

Lemma register_keeps_unique_witness :
  NoDup (User.email
           <$> users (respond (register (deps := sample_collaborators)
                                 carol_signup) sample_world).2)
  ∧ NoDup (User.username
             <$> users (respond (register (deps := sample_collaborators)
                                   carol_signup) sample_world).2).
Proof.
  apply (@register_keeps_unique sample_collaborators carol_signup sample_world);
    refine (bool_decide_unpack _ _); vm_compute; exact I.
Defined.

Lemma register_duplicate_refused_witness :
  respond (register (deps := sample_collaborators) bob_again_signup)
    sample_world
  = (Some (status_json 400 false "Username or email already in use"),
     {| users := users sample_world;
        calls := [FindOneOr "bob@example.com" "robert"] |}).
Proof.
  apply (@register_duplicate_refused sample_collaborators bob_again_signup
           sample_world "robert" "bob@example.com" "swordfish" bob);
    [discriminate | reflexivity | discriminate | reflexivity | discriminate
    | reflexivity | simpl; lia | | left; reflexivity].
  simpl. apply list_elem_of_further, list_elem_of_here.
Defined.

Lemma registerAdmin_denied_witness :
  registerAdmin (deps := sample_collaborators) sample_env
    {| ra_username := Some "dave"; ra_email := Some "dave@example.com";
       ra_password := Some "Str0ng&Passw0rd"; ra_adminToken := Some "guess" |}
    sample_world
  = (Returned (status_json 403 false
                 "Invalid admin token. Admin registration denied."),
     sample_world).
Proof.
  apply (@registerAdmin_denied sample_collaborators).
  right; left. discriminate.
Defined.

Lemma registerAdmin_created_witness :
  ∃ username email password,
    ra_adminToken dave_admin_signup = ADMIN_SECRET_TOKEN sample_env
    ∧ JS.truthy (ADMIN_SECRET_TOKEN sample_env) = true
    ∧ ra_username dave_admin_signup = Some username
    ∧ ra_email dave_admin_signup = Some email
    ∧ ra_password dave_admin_signup = Some password
    ∧ Regex.strongPasswordRegex_test password = true
    ∧ (∀ u, u ∈ users sample_world →
            User.email u ≠ email ∧ User.username u ≠ username)
    ∧ users (registerAdmin (deps := sample_collaborators) sample_env
               dave_admin_signup sample_world).2
      = (users sample_world
         ++ [{| User._id := ObjectId (Collaborators := sample_collaborators)
                              (users sample_world);
                User.username := username; User.email := email;
                User.password := bcrypt_hash (Collaborators := sample_collaborators)
                                   password;
                User.role := "admin"; User.isActive := true;
                User.loginAttempts := 0; User.lockUntil := None;
                User.refreshTokens := [] |}])%list
    ∧ {| ac_id := "6501000"; ac_username := "dave";
         ac_email := "dave@example.com" |}
      = {| ac_id := ObjectId (Collaborators := sample_collaborators)
                     (users sample_world);
           ac_username := username; ac_email := email |}.
Proof.
  apply (@registerAdmin_created sample_collaborators sample_env
           dave_admin_signup sample_world
           {| ac_id := "6501000"; ac_username := "dave";
              ac_email := "dave@example.com" |}).
  reflexivity.
Defined.

Lemma login_invalid_credentials_witness :
  (respond (login (deps := sample_collaborators) sample_env 1000000
              bob_wrong_login) sample_world).1
  = Some (status_json 401 false "Invalid credentials")
  ∧ calls (respond (login (deps := sample_collaborators) sample_env 1000000
                      bob_wrong_login) sample_world).2
    = [FindOne "bob@example.com"; MatchPassword "6501b" "battery stable";
       IncrementLoginAttempts "6501b"].
Proof.
  apply (proj2 (@login_invalid_credentials sample_collaborators sample_env
                  1000000 bob_wrong_login sample_world "bob@example.com"
                  "battery stable" eq_refl ltac:(discriminate) eq_refl
                  ltac:(discriminate)) bob);
    [reflexivity | discriminate | reflexivity | reflexivity].
Defined.

Lemma login_success_witness :
  (respond (login (deps := sample_collaborators) sample_env 5000000 bob_login)
     sample_world).1
  = Some (json (LoginBody
                  (Jwt.Signed {| Jwt.id := "6501b"; Jwt.role := Some "user";
                                 Jwt.iat := 5000; Jwt.exp := 91400 |}
                     "access-secret")
                  (Jwt.Signed {| Jwt.id := "6501b"; Jwt.role := None;
                                 Jwt.iat := 5000; Jwt.exp := 609800 |}
                     "refresh-secret")
                  {| pu_id := "6501b"; pu_username := "bob";
                     pu_email := "bob@example.com"; pu_role := "user" |})).
Proof.
  apply (@login_success sample_collaborators sample_env 5000000 bob_login
           sample_world "bob@example.com" "battery staple" bob
           "access-secret" "refresh-secret");
    [reflexivity | discriminate | reflexivity | discriminate | reflexivity
    | reflexivity | discriminate | reflexivity | reflexivity | reflexivity
    | discriminate | reflexivity | discriminate].
Defined.

Lemma login_without_signing_secret_witness :
  respond (login (deps := sample_collaborators) unsigned_env 5000000 bob_login)
    sample_world
  = (Some (status_json 500 false "Server error while logging in"),
     {| users := updateOne "6501b" (User.set_lockout 0 None)
                   (users sample_world);
        calls := [FindOne "bob@example.com";
                  MatchPassword "6501b" "battery staple";
                  ResetLoginAttempts "6501b"] |}).
Proof.
  apply (@login_without_signing_secret sample_collaborators unsigned_env
           5000000 bob_login sample_world "bob@example.com" "battery staple"
           bob);
    [reflexivity | discriminate | reflexivity | discriminate | reflexivity
    | discriminate | reflexivity | reflexivity | left; reflexivity].
Defined.

Lemma login_then_refresh_witness :
  ∃ accessToken refreshToken profile,
    (respond (login (deps := sample_collaborators) sample_env 5000000 bob_login)
       sample_world).1
    = Some (json (LoginBody accessToken refreshToken profile))
    ∧ (respond (refresh sample_env 90000000 (Some refreshToken))
         (respond (login (deps := sample_collaborators) sample_env 5000000
                     bob_login) sample_world).2).1
      = Some (json (RefreshBody
                      (Jwt.Signed
                         {| Jwt.id := "6501b"; Jwt.role := Some "user";
                            Jwt.iat := 90000; Jwt.exp := 176400 |}
                         "access-secret"))).
Proof.
  apply (@login_then_refresh sample_collaborators sample_env 5000000 90000000
           bob_login sample_world "bob@example.com" "battery staple" bob
           "access-secret" "refresh-secret");
    [reflexivity | discriminate | reflexivity | discriminate | reflexivity
    | reflexivity | discriminate | reflexivity | reflexivity | reflexivity
    | reflexivity | discriminate | reflexivity | discriminate | reflexivity].
Defined.

Lemma tokens_not_interchangeable_witness :
  (∃ accessToken,
     generateAccessToken sample_env 1000000 "6501b" "user" = Ok accessToken
     ∧ respond (refresh sample_env 2000000 (Some accessToken)) sample_world
       = (Some (status_json 401 false "Invalid or expired refresh token"),
          sample_world))
  ∧ (∃ refreshToken,
       generateRefreshToken sample_env 1000000 "6501b" = Ok refreshToken
       ∧ protect sample_env 2000000 (Bearer refreshToken) sample_world
         = (Returned (status_json 401 false "Not authorized, invalid token"),
            sample_world)).
Proof.
  apply (tokens_not_interchangeable sample_env 1000000 2000000 "6501b" "user"
           "access-secret" "refresh-secret" sample_world);
    [reflexivity | discriminate | reflexivity | discriminate | discriminate].
Defined.

Lemma refresh_rejected_alike_witness :
  respond (refresh sample_env 700000000 (Some bob_refresh)) sample_world
  = (Some (status_json 401 false "Invalid or expired refresh token"),
     sample_world).
Proof.
  apply (proj1 (refresh_rejected_alike sample_env 700000000
                  {| Jwt.id := "6501b"; Jwt.role := None;
                     Jwt.iat := 1000; Jwt.exp := 605800 |}
                  "refresh-secret" "refresh-secret" "x" sample_world
                  eq_refl ltac:(discriminate) ltac:(discriminate)));
    [reflexivity | vm_compute; discriminate].
Defined.

Lemma refreshed_token_passes_guard_witness :
  ∃ accessToken,
    (respond (refresh sample_env 1000000 (Some bob_refresh)) sample_world).1
    = Some (json (RefreshBody accessToken))
    ∧ (protect sample_env 80000000 (Bearer accessToken)
         (respond (refresh sample_env 1000000 (Some bob_refresh))
            sample_world).2).1
      = Normal {| ru_id := "6501b"; ru_role := Some "user" |}.
Proof.
  apply (refreshed_token_passes_guard sample_env 1000000 80000000 bob_refresh
           {| Jwt.id := "6501b"; Jwt.role := None;
              Jwt.iat := 1000; Jwt.exp := 605800 |} bob "access-secret"
           sample_world);
    [reflexivity | reflexivity | reflexivity | | reflexivity | discriminate
    | reflexivity].
  simpl. apply list_elem_of_here.
Defined.

(** bob reads his own profile. *)
Lemma me_outcome_witness :
  (me sample_env 1000000 (Bearer bob_access) sample_world).1
  = Normal (select_profile bob).
Proof.
  apply (proj1 (proj2 (me_outcome sample_env 1000000 (Bearer bob_access)
                         sample_world))
           bob_access
           {| Jwt.id := "6501b"; Jwt.role := Some "user";
              Jwt.iat := 1000; Jwt.exp := 87400 |} bob);
    reflexivity.
Defined.

Lemma logout_unauthenticated_witness :
  (respond (logout sample_env 1000000 NoHeader (Some bob_refresh))
     sample_world).1
  = Some (status_json 401 false "Not authorized, no token provided")
  ∧ status (status_json 401 false "Not authorized, no token provided") = 401
  ∧ users (respond (logout sample_env 1000000 NoHeader (Some bob_refresh))
             sample_world).2
    = users sample_world.
Proof.
  apply (logout_unauthenticated sample_env 1000000 NoHeader (Some bob_refresh)
           sample_world).
  reflexivity.
Defined.

(** alice, with a token of her own, logs out with bob's refresh token: bob's
    list keeps it. *)
Lemma logout_removes_only_callers_token_witness :
  find (λ u, String.eqb (User._id u) "6501b")
    (users (respond (logout sample_env 1000000
                       (Bearer (Jwt.Signed
                                  {| Jwt.id := "6501a"; Jwt.role := Some "user";
                                     Jwt.iat := 1000; Jwt.exp := 87400 |}
                                  "access-secret"))
                       (Some bob_refresh)) sample_world).2)
  = Some bob.
Proof.
  apply (proj2 (proj2 (proj2
           (logout_removes_only_callers_token sample_env 1000000
              (Bearer (Jwt.Signed
                         {| Jwt.id := "6501a"; Jwt.role := Some "user";
                            Jwt.iat := 1000; Jwt.exp := 87400 |}
                         "access-secret"))
              bob_refresh sample_world
              {| ru_id := "6501a"; ru_role := Some "user" |} alice
              eq_refl eq_refl eq_refl))) "6501b").
  discriminate.
Defined.

Lemma logout_revokes_witness :
  ∃ response,
    (respond (refresh sample_env 2000000 (Some bob_refresh))
       (respond (logout sample_env 1000000 (Bearer bob_access)
                   (Some bob_refresh)) sample_world).2).1
    = Some response
    ∧ status response = 401
    ∧ success response = false.
Proof.
  apply (proj1 (proj2
           (logout_revokes sample_env 1000000 2000000 (Bearer bob_access)
              {| Jwt.id := "6501b"; Jwt.role := None;
                 Jwt.iat := 1000; Jwt.exp := 605800 |} "refresh-secret"
              sample_world {| ru_id := "6501b"; ru_role := Some "user" |}
              eq_refl eq_refl))).
Defined.


Lemma inquiries_hourly_limit_witness :
  Whatsapp.in_hour "65a1b2c3d4e5f60718293a4b" "203.0.113.7" 3600000
    (Whatsapp.inquiries
       (Whatsapp.run sample_isObjectId sample_env sample_products
          (Whatsapp.in_turn
             [shopper_call 0; shopper_call 1000; shopper_call 2000;
              shopper_call 3000; shopper_call 3600000])
          quiet_shop))
  ≤ 3.
Proof.
  apply (inquiries_hourly_limit sample_isObjectId sample_env sample_products
           [shopper_call 0; shopper_call 1000; shopper_call 2000;
            shopper_call 3000; shopper_call 3600000] quiet_shop).
  - reflexivity.
  - intros id ip T. unfold Whatsapp.in_hour. simpl. lia.
  - repeat constructor; simpl; lia.
Defined.

(** Five requests in flight together all count before any is logged, and all
    five are logged within the hour. *)
Example requests_in_flight_all_logged :
  Whatsapp.in_hour "65a1b2c3d4e5f60718293a4b" "203.0.113.7" 10
    (Whatsapp.inquiries
       (Whatsapp.run sample_isObjectId sample_env sample_products
          [Whatsapp.Arrive shopper_inquiry Whatsapp.no_faults 0;
           Whatsapp.Arrive shopper_inquiry Whatsapp.no_faults 1;
           Whatsapp.Arrive shopper_inquiry Whatsapp.no_faults 2;
           Whatsapp.Arrive shopper_inquiry Whatsapp.no_faults 3;
           Whatsapp.Arrive shopper_inquiry Whatsapp.no_faults 4;
           Whatsapp.Count 0 5; Whatsapp.Count 1 5; Whatsapp.Count 2 5;
           Whatsapp.Count 3 5; Whatsapp.Count 4 5;
           Whatsapp.Create 0 6; Whatsapp.Create 0 7; Whatsapp.Create 0 8;
           Whatsapp.Create 0 9; Whatsapp.Create 0 10]
          quiet_shop))
  = 5.
Proof. vm_compute. reflexivity. Qed.

(** An id that is no ObjectId makes the query throw: the answer is 500, not
    404, and nothing is logged. *)
Example inquiry_for_malformed_id :
  Whatsapp.inquire sample_isObjectId sample_env sample_products
    Whatsapp.no_faults
    {| Whatsapp.id := "not-an-id"; Whatsapp.captchaToken := None;
       Whatsapp.honeypot := None; Whatsapp.ip := "203.0.113.7";
       Whatsapp.user_agent := None; Whatsapp.user := None;
       Whatsapp.protocol := "https"; Whatsapp.host := "shop.example.com" |}
    1000000 []
  = (Whatsapp.Failure Whatsapp.server_error, []).
Proof. vm_compute. reflexivity. Qed.

(** A login in the second in which bob's refresh token was issued signs the
    same token again: after his logout, it puts the token back on his list,
    and the refresh route accepts it once more. *)
Example login_in_same_second_relists_token :
  let w1 :=
    (respond (logout sample_env 1000000 (Bearer bob_access) (Some bob_refresh))
       sample_world).2 in
  let w2 :=
    (respond (login (deps := sample_collaborators) sample_env 1000500
                bob_login) w1).2 in
  (success <$> (respond (refresh sample_env 1000900 (Some bob_refresh)) w1).1)
  = Some false
  ∧ (success <$> (respond (refresh sample_env 1000900 (Some bob_refresh)) w2).1)
    = Some true.
Proof. vm_compute. done. Qed.

(** The name [Hats & Co] has a slug with a letter. *)
Lemma slugify_empty_witness :
  Slug.has_non_dash (Slug.slugify "Hats & Co") = true.
Proof.
  apply (proj2 (slugify_empty [72; 97; 116; 115; 32; 38; 32; 67; 111]%nat
                  "Hats & Co" eq_refl)).
Defined.
